(** * TinyDB: the table / query-cache engine of [tinydb/__init__.py]

    A shallow embedding of the two classes of the module, [TinyDB] and
    [Table], as programs of a small state-and-exception monad over a world
    of Python objects, followed by the properties proved about them.  The
    method [m] of the class [C] is [C_m] here ([TinyDB_read] is
    [TinyDB._read], [Table_init] is [Table.__init__]); attributes keep their
    names. *)

From Stdlib Require Import ZArith Lia.
From stdpp Require Import base option list gmap strings countable sorting.

Local Open Scope Z_scope.
Local Open Scope string_scope.
Local Open Scope list_scope.

(** ** Values and documents *)

(** The values a document field holds.  The module never inspects a field
    other than ['_id']; all it needs of values is Python's [==], which on
    [None], integers and strings is structural equality. *)
Inductive value : Type :=
  | VNone
  | VInt (z : Z)
  | VStr (s : string).

#[global] Instance value_eq_dec : EqDecision value.
Proof. solve_decision. Defined.

#[global] Instance value_countable : Countable value.
Proof.
  refine (inj_countable'
    (fun v => match v with
              | VNone => inl tt
              | VInt z => inr (inl z)
              | VStr s => inr (inr s)
              end)
    (fun x => match x with
              | inl _ => VNone
              | inr (inl z) => VInt z
              | inr (inr s) => VStr s
              end) _).
  intros []; reflexivity.
Defined.

(** A document is a Python [dict] with string keys.  Equality of [dict]s is
    extensional, as is equality of [gmap]s. *)
Abbreviation document := (gmap string value).

(** What [TinyDB._read] returns and [TinyDB._write] takes (":rtype: dict,
    list"): the dict of all tables, or one list of documents. *)
Inductive data : Type :=
  | Tables (m : gmap string (list document))
  | Docs (l : list document).

#[global] Instance data_eq_dec : EqDecision data.
Proof. solve_decision. Defined.

(** ** Conditions *)

(** Modelled from the spec: the module [tinydb.queries] ([query], [where]) is
    not among the sources.  A condition is an immutable description (field,
    operator, operand, or a boolean combination) with structural equality,
    and a pure evaluation function that is false on an absent field. *)
Inductive query : Type :=
  | QHas (key : string)
  | QEq (key : string) (v : value)
  | QLt (key : string) (z : Z)
  | QGt (key : string) (z : Z)
  | QNot (q : query)
  | QAnd (q1 q2 : query)
  | QOr (q1 q2 : query).

#[global] Instance query_eq_dec : EqDecision query.
Proof. solve_decision. Defined.

Fixpoint query_enc (q : query) : gen_tree (string * option (value + bool * Z)) :=
  match q with
  | QHas k => GenLeaf (k, None)
  | QEq k v => GenLeaf (k, Some (inl v))
  | QLt k z => GenLeaf (k, Some (inr (true, z)))
  | QGt k z => GenLeaf (k, Some (inr (false, z)))
  | QNot q => GenNode 0 [query_enc q]
  | QAnd q1 q2 => GenNode 1 [query_enc q1; query_enc q2]
  | QOr q1 q2 => GenNode 2 [query_enc q1; query_enc q2]
  end.

Fixpoint query_dec (t : gen_tree (string * option (value + bool * Z))) : query :=
  match t with
  | GenLeaf (k, None) => QHas k
  | GenLeaf (k, Some (inl v)) => QEq k v
  | GenLeaf (k, Some (inr (true, z))) => QLt k z
  | GenLeaf (k, Some (inr (false, z))) => QGt k z
  | GenNode 0 [t1] => QNot (query_dec t1)
  | GenNode 1 [t1; t2] => QAnd (query_dec t1) (query_dec t2)
  | GenNode 2 [t1; t2] => QOr (query_dec t1) (query_dec t2)
  | GenNode _ _ => QHas ""
  end.

#[global] Instance query_countable : Countable query.
Proof.
  refine (inj_countable' query_enc query_dec _).
  induction x as [| | | |q IH|q1 IH1 q2 IH2|q1 IH1 q2 IH2]; simpl;
    rewrite ?IH, ?IH1, ?IH2; reflexivity.
Defined.

(** [cond(e)]: the evaluation function of a condition. *)
Fixpoint eval (q : query) (e : document) : bool :=
  match q with
  | QHas k => bool_decide (is_Some (e !! k))
  | QEq k v => bool_decide (e !! k = Some v)
  | QLt k z => match e !! k with Some (VInt x) => bool_decide (x < z) | _ => false end
  | QGt k z => match e !! k with Some (VInt x) => bool_decide (z < x) | _ => false end
  | QNot q => negb (eval q e)
  | QAnd q1 q2 => eval q1 e && eval q2 e
  | QOr q1 q2 => eval q1 e || eval q2 e
  end.

(** The keys of a [Table._queries_cache] dict: conditions, and the function
    object [where] imported at the top of the module, which is no condition
    and equal to none. *)
Inductive cache_key : Type :=
  | KQuery (cond : query)
  | KWhere.

#[global] Instance cache_key_eq_dec : EqDecision cache_key.
Proof. solve_decision. Defined.

#[global] Instance cache_key_countable : Countable cache_key.
Proof.
  refine (inj_countable'
    (fun k => match k with KQuery q => Some q | KWhere => None end)
    (fun o => match o with Some q => KQuery q | None => KWhere end) _).
  intros []; reflexivity.
Defined.

(** ** Objects and the world *)

(** A [Table] instance: the attributes bound by [Table.__init__]. *)
Record Table : Type := mkTable {
  name : string;
  _db : nat;
  _queries_cache : gmap cache_key (list document);
  _last_id : value
}.

(** A [TinyDB] instance: [_storage], and [_table] once [__init__] has bound
    it. *)
Record TinyDB : Type := mkTinyDB {
  _storage : nat;
  _table : option nat
}.

(** What a storage holds: a decodable snapshot, or nothing decodable
    ([None]; the storage's [read] then raises [ValueError]). *)
Abbreviation backend := (option data).

(** The world: the storages, the heap of [TinyDB] and [Table] instances
    (a reference is an index), the class attribute [TinyDB._table_cache],
    one dict for the whole class, and the dicts the callers own. *)
Record world : Type := mkWorld {
  backends : list backend;
  dbs : list TinyDB;
  tables : list Table;
  _table_cache : gmap string nat;
  dicts : list document
}.

Definition set_backends (f : list backend -> list backend) (w : world) : world :=
  mkWorld (f (backends w)) (dbs w) (tables w) (_table_cache w) (dicts w).
Definition set_dbs (f : list TinyDB -> list TinyDB) (w : world) : world :=
  mkWorld (backends w) (f (dbs w)) (tables w) (_table_cache w) (dicts w).
Definition set_tables (f : list Table -> list Table) (w : world) : world :=
  mkWorld (backends w) (dbs w) (f (tables w)) (_table_cache w) (dicts w).
Definition set_table_cache (f : gmap string nat -> gmap string nat) (w : world) : world :=
  mkWorld (backends w) (dbs w) (tables w) (f (_table_cache w)) (dicts w).
Definition set_dicts (f : list document -> list document) (w : world) : world :=
  mkWorld (backends w) (dbs w) (tables w) (_table_cache w) (f (dicts w)).

Definition with_cache (c : gmap cache_key (list document)) (t : Table) : Table :=
  mkTable (name t) (_db t) c (_last_id t).
Definition with_last_id (v : value) (t : Table) : Table :=
  mkTable (name t) (_db t) (_queries_cache t) v.

(** ** The monad: state and exceptions *)

(** The exceptions the module meets.  [Stuck] is no Python exception: it
    marks what the model has no value for (a reference that denotes no
    object, a dict of tables used where only documents make sense); no
    [except] clause catches it. *)
Inductive exn : Type :=
  | ValueError
  | KeyError
  | TypeError
  | IndexError
  | AttributeError
  | Stuck.

#[global] Instance exn_eq_dec : EqDecision exn.
Proof. solve_decision. Defined.

Inductive outcome (A : Type) : Type :=
  | Return (a : A)
  | Raise (e : exn).
Arguments Return {A} a.
Arguments Raise {A} e.

(** A statement runs in a world and leaves a world, whether it returns or
    raises: what was mutated before an exception stays mutated. *)
Definition py (A : Type) : Type := world -> world * outcome A.

Definition ret {A} (a : A) : py A := fun w => (w, Return a).
Definition raise {A} (e : exn) : py A := fun w => (w, Raise e).
Definition bind {A B} (m : py A) (k : A -> py B) : py B :=
  fun w => match m w with
           | (w1, Return a) => k a w1
           | (w1, Raise e) => (w1, Raise e)
           end.
(** [try: m except (e1, e2, ...): h] *)
Definition try_except {A} (m : py A) (caught : list exn) (h : py A) : py A :=
  fun w => match m w with
           | (w1, Return a) => (w1, Return a)
           | (w1, Raise e) => if bool_decide (e ∈ caught) then h w1 else (w1, Raise e)
           end.
Definition gets {A} (f : world -> A) : py A := fun w => (w, Return (f w)).
Definition modify (f : world -> world) : py unit := fun w => (f w, Return tt).
Definition from_option {A} (o : option A) (e : exn) : py A :=
  match o with Some a => ret a | None => raise e end.

Declare Scope py_scope.
Delimit Scope py_scope with py.
Notation "x <- m ;; k" := (bind m (fun x => k))
  (at level 100, m at next level, right associativity) : py_scope.
Notation "m ;; k" := (bind m (fun _ => k))
  (at level 100, right associativity) : py_scope.
Local Open Scope py_scope.

(** Dereferencing and updating objects. *)
Definition get_db (r : nat) : py TinyDB :=
  w <- gets dbs ;; from_option (w !! r) Stuck.
Definition get_table (r : nat) : py Table :=
  w <- gets tables ;; from_option (w !! r) Stuck.
Definition get_dict (r : nat) : py document :=
  w <- gets dicts ;; from_option (w !! r) Stuck.
Definition set_table (r : nat) (t : Table) : py unit :=
  modify (set_tables <[r := t]>).
Definition set_dict (r : nat) (d : document) : py unit :=
  modify (set_dicts <[r := d]>).
Definition new_table (t : Table) : py nat :=
  r <- gets (fun w => length (tables w)) ;;
  modify (set_tables (fun ts => ts ++ [t])) ;;
  ret r.
Definition new_db (d : TinyDB) : py nat :=
  r <- gets (fun w => length (dbs w)) ;;
  modify (set_dbs (fun ds => ds ++ [d])) ;;
  ret r.

(** ** The storage *)

(** Modelled from the spec: the module [tinydb.storages] is not among the
    sources.  [read()] returns the stored snapshot, or fails to decode when
    nothing decodable is stored; [write(v)] replaces the whole snapshot.  The
    storage serialises, as [JSONStorage], the default of [TinyDB.__init__],
    does: it holds values, and what it returns shares nothing with the
    objects that were written. *)
Definition storage_read (s : nat) : py data :=
  bs <- gets backends ;;
  b <- from_option (bs !! s) Stuck ;;
  from_option b ValueError.

Definition storage_write (s : nat) (values : data) : py unit :=
  bs <- gets backends ;;
  _ <- from_option (bs !! s) Stuck ;;
  modify (set_backends <[s := Some values]>).

(** ** Python's operations on the values at hand *)

(** [not table], for [table] a [str] or [None]: the empty string is as
    false as [None]. *)
Definition py_not (table : option string) : bool :=
  match table with
  | None => true
  | Some t => bool_decide (t = "")
  end.

(** [d[key]] for [d] the dict of tables; a list cannot be indexed by a
    [str]. *)
Definition getitem (d : data) (key : string) : py data :=
  match d with
  | Tables m => from_option (Docs <$> m !! key) KeyError
  | Docs _ => raise TypeError
  end.

(** [d[key] = values]; a list takes no [str] index.  The model has no
    dict nested in the dict of tables. *)
Definition setitem (d : data) (key : string) (values : data) : py data :=
  match d, values with
  | Tables m, Docs l => ret (Tables (<[key := l]> m))
  | Tables _, Tables _ => raise Stuck
  | Docs _, _ => raise TypeError
  end.

(** [d.pop()]: the last element of a list; [dict.pop] wants a key. *)
Definition pop (d : data) : py document :=
  match d with
  | Docs l => from_option (list.last l) IndexError
  | Tables _ => raise TypeError
  end.

(** [data.append(element)], [element] a reference to a caller's dict; the
    storage keeps what the list holds when it is written, and the dict is
    not touched between here and there.  A dict has no [append]. *)
Definition append (d : data) (element : nat) : py data :=
  match d with
  | Docs l => e <- get_dict element ;; ret (Docs (l ++ [e]))
  | Tables _ => raise AttributeError
  end.

(** [for e in d]: the documents of a list.  Iterating a dict yields its
    keys, none when it is empty; keys are no documents. *)
Definition iter (d : data) : py (list document) :=
  match d with
  | Docs l => ret l
  | Tables m => if bool_decide (m = ∅) then ret [] else raise Stuck
  end.

(** [len(d)]: the length of a list, the number of keys of a dict. *)
Definition len (d : data) : nat :=
  match d with
  | Docs l => length l
  | Tables m => size m
  end.

(** [bool(l)] for a list: whether it has an element. *)
Definition truth (l : list document) : bool :=
  match l with
  | [] => false
  | _ :: _ => true
  end.

(** [x += 1] *)
Definition incr (x : value) : py value :=
  match x with
  | VInt n => ret (VInt (n + 1))
  | _ => raise TypeError
  end.

(** ** class TinyDB: access to the backend *)

(** [TinyDB._read()], the branch [if not table] *)
Definition TinyDB_read_all (self : nat) : py data :=
  db <- get_db self ;;
  try_except (storage_read (_storage db)) [ValueError] (ret (Tables ∅)).

(** [TinyDB._read(table)]; its recursive call [self._read()] is the branch
    above. *)
Definition TinyDB_read (self : nat) (table : option string) : py data :=
  if py_not table then TinyDB_read_all self
  else
    try_except
      (d <- TinyDB_read_all self ;; getitem d (default "" table))
      [KeyError; TypeError]
      (ret (Docs [])).

(** [TinyDB._write(values)], the branch [if not table] *)
Definition TinyDB_write_all (self : nat) (values : data) : py unit :=
  db <- get_db self ;;
  storage_write (_storage db) values.

(** [TinyDB._write(values, table)]; its recursive call
    [self._write(current_data)] is the branch above. *)
Definition TinyDB_write (self : nat) (values : data) (table : option string) : py unit :=
  if py_not table then TinyDB_write_all self values
  else
    current_data <- TinyDB_read self None ;;
    current_data <- setitem current_data (default "" table) values ;;
    TinyDB_write_all self current_data.

(** [TinyDB.purge_all()] *)
Definition TinyDB_purge_all (self : nat) : py unit :=
  TinyDB_write self (Tables ∅) None.

(** ** class Table *)

(** [Table._read()] *)
Definition Table_read (self : nat) : py data :=
  t <- get_table self ;;
  TinyDB_read (_db t) (Some (name t)).

(** [Table._clear_query_cache()] *)
Definition Table_clear_query_cache (self : nat) : py unit :=
  t <- get_table self ;;
  set_table self (with_cache ∅ t).

(** [Table._write(values)] *)
Definition Table_write (self : nat) (values : data) : py unit :=
  Table_clear_query_cache self ;;
  t <- get_table self ;;
  TinyDB_write (_db t) values (Some (name t)).

(** [Table.__init__(name, db)].  [self._read()] is [db._read(name)]; the
    instance enters the heap with all its attributes bound. *)
Definition Table_init (name : string) (db : nat) : py nat :=
  last_id <-
    try_except
      (d <- TinyDB_read db (Some name) ;;
       e <- pop d ;;
       from_option (e !! "_id") KeyError)
      [IndexError]
      (ret (VInt 0)) ;;
  new_table (mkTable name db ∅ last_id).

(** [Table.all()] *)
Definition Table_all (self : nat) : py data :=
  Table_read self.

(** [Table.insert(element)] *)
Definition Table_insert (self : nat) (element : nat) : py unit :=
  t <- get_table self ;;
  next_id <- incr (_last_id t) ;;
  set_table self (with_last_id next_id t) ;;
  e <- get_dict element ;;
  set_dict element (<["_id" := next_id]> e) ;;
  data <- Table_read self ;;
  data <- append data element ;;
  Table_write self data.

(** [Table.search(cond)] *)
Definition Table_search (self : nat) (cond : query) : py (list document) :=
  t <- get_table self ;;
  if bool_decide (is_Some (_queries_cache t !! KQuery cond)) then
    from_option (_queries_cache t !! KWhere) KeyError
  else
    d <- Table_all self ;;
    l <- iter d ;;
    let elems := filter (fun e => eval cond e = true) l in
    t <- get_table self ;;
    set_table self (with_cache (<[KWhere := elems]> (_queries_cache t)) t) ;;
    ret elems.

(** [Table.remove(cond)] *)
Definition Table_remove (self : nat) (cond : query) : py unit :=
  to_remove <- Table_search self cond ;;
  d <- Table_all self ;;
  l <- iter d ;;
  Table_write self (Docs (filter (fun e => e ∉ to_remove) l)).

(** [Table.purge()] *)
Definition Table_purge (self : nat) : py unit :=
  Table_write self (Docs []).

(** [Table.get(cond)]: the first match, or [None]. *)
Definition Table_get (self : nat) (cond : query) : py (option document) :=
  d <- Table_all self ;;
  l <- iter d ;;
  ret (head (filter (fun e => eval cond e = true) l)).

(** [Table.__len__()] *)
Definition Table_len (self : nat) : py nat :=
  d <- Table_all self ;;
  ret (len d).

(** [Table.__contains__(condition)] *)
Definition Table_contains (self : nat) (condition : query) : py bool :=
  l <- Table_search self condition ;;
  ret (truth l).

(** ** class TinyDB: the registry of tables *)

(** [TinyDB.table(name)].  [self._table_cache] is the class attribute: no
    instance binds one of its own. *)
Definition TinyDB_table (self : nat) (name : string) : py nat :=
  cache <- gets _table_cache ;;
  match cache !! name with
  | Some table => ret table
  | None =>
      table <- Table_init name self ;;
      modify (set_table_cache <[name := table]>) ;;
      ret table
  end.

(** [TinyDB.__init__(...)]: [storage] is the backend the storage class
    opens for the arguments. *)
Definition TinyDB_init (storage : nat) : py nat :=
  self <- new_db (mkTinyDB storage None) ;;
  table <- TinyDB_table self "_default" ;;
  modify (set_dbs <[self := mkTinyDB storage (Some table)]>) ;;
  ret self.

(** [self._table], for the methods that go through it.  Before [__init__]
    has bound it the model has no value for it. *)
Definition TinyDB_default_table (self : nat) : py nat :=
  db <- get_db self ;;
  from_option (_table db) Stuck.

(** [TinyDB.__len__()] *)
Definition TinyDB_len (self : nat) : py nat :=
  table <- TinyDB_default_table self ;;
  Table_len table.

(** [TinyDB.__contains__(item)]; [self.table()] is [self.table('_default')]. *)
Definition TinyDB_contains (self : nat) (item : query) : py bool :=
  table <- TinyDB_table self "_default" ;;
  Table_contains table item.

(** [TinyDB.__getattr__(name)] hands the attribute of [self._table]: the
    calls [db.insert(element)] and [db.search(cond)] are those of the
    default table. *)
Definition TinyDB_insert (self : nat) (element : nat) : py unit :=
  table <- TinyDB_default_table self ;;
  Table_insert table element.

Definition TinyDB_search (self : nat) (cond : query) : py (list document) :=
  table <- TinyDB_default_table self ;;
  Table_search table cond.

(** A dict literal. *)
Definition doc (kvs : list (string * value)) : document := list_to_map kvs.

(** * The vocabulary of the properties *)

(** ** The backend as [TinyDB] reads and writes it *)

(** What [TinyDB._read()] makes of a backend. *)
Definition snapshot (b : backend) : data := default (Tables ∅) b.

(** What [TinyDB._read(t)] makes of a snapshot, for a name that is not
    empty. *)
Definition entry (d : data) (t : string) : list document :=
  match d with
  | Tables m => default [] (m !! t)
  | Docs _ => []
  end.

(** ** A table and its documents *)

(** The documents the table named [nm] has in the backend [b], where the
    backend can hold a table of that name: its entry in the dict of tables
    (none is the empty list; nothing decodable is the empty dict); or, for
    the empty name, whose reads and writes are of the whole snapshot, the
    snapshot when it is a list. *)
Definition table_docs (b : backend) (nm : string) : option (list document) :=
  if bool_decide (nm = "") then
    match b with Some (Docs l) => Some l | _ => None end
  else
    match snapshot b with Tables m => Some (entry (Tables m) nm) | Docs _ => None end.

(** The snapshot after the table named [nm] wrote the list [v]. *)
Definition put_docs (b : backend) (nm : string) (v : list document) : data :=
  if bool_decide (nm = "") then Docs v
  else match snapshot b with
       | Tables m => Tables (<[nm := v]> m)
       | Docs l => Docs l
       end.

(** [table_at w self t l]: in [w] the reference [self] denotes the table
    [t], and the backend of its database holds the documents [l] for it. *)
Record table_at (w : world) (self : nat) (t : Table) (l : list document) : Prop := {
  at_table : tables w !! self = Some t;
  at_docs : exists db b,
      dbs w !! _db t = Some db /\
      backends w !! _storage db = Some b /\
      table_docs b (name t) = Some l
}.

(** No condition is a key of the cache: so it is in a table as
    [__init__] leaves it, and so every method leaves it. *)
Definition no_cond_key (t : Table) : Prop :=
  forall c, _queries_cache t !! KQuery c = None.

(** What a method leaves alone. *)
Definition frame (w w' : world) : Prop :=
  dicts w' = dicts w /\
  dbs w' = dbs w /\
  _table_cache w' = _table_cache w /\
  length (tables w') = length (tables w).

(** ** Mutations *)

Inductive mutation : Type :=
  | Insert (element : nat)
  | Remove (cond : query)
  | Purge.

Definition mutate (self : nat) (m : mutation) : py unit :=
  match m with
  | Insert element => Table_insert self element
  | Remove cond => Table_remove self cond
  | Purge => Table_purge self
  end.

(** What a mutation needs to return: [insert] a counter that is an integer
    and a dict to stamp; [remove] a [search] that answers, be it by a scan
    or from the cache. *)
Definition ready (w : world) (t : Table) (m : mutation) : Prop :=
  match m with
  | Insert element => (exists n, _last_id t = VInt n) /\ is_Some (dicts w !! element)
  | Remove cond =>
      _queries_cache t !! KQuery cond = None \/ is_Some (_queries_cache t !! KWhere)
  | Purge => True
  end.

(** A caller that performs the mutations [ms] in turn and, after each
    [insert], reads the ['_id'] it finds in the dict it passed. *)
Fixpoint assigned (self : nat) (ms : list mutation) : py (list value) :=
  match ms with
  | [] => ret []
  | Insert element :: ms =>
      Table_insert self element ;;
      e <- get_dict element ;;
      id <- from_option (e !! "_id") KeyError ;;
      ids <- assigned self ms ;;
      ret (id :: ids)
  | m :: ms => mutate self m ;; assigned self ms
  end.

Definition is_insert (m : mutation) : bool :=
  match m with Insert _ => true | _ => false end.

(** The dicts the caller passes exist. *)
Definition allocated (w : world) (m : mutation) : Prop :=
  match m with
  | Insert element => (element < length (dicts w))%nat
  | _ => True
  end.

(** ** Identifiers *)

(** The identifier of a document. *)
Definition doc_id (e : document) : option Z :=
  match e !! "_id" with
  | Some (VInt z) => Some z
  | _ => None
  end.

(** The identifiers in a list of documents, in its order. *)
Definition doc_ids (l : list document) : list Z := omap doc_id l.

(** The identifier of the last document, 0 for the empty list. *)
Definition last_doc_id (l : list document) : Z :=
  default 0 (list.last l ≫= doc_id).

(** The stored identifiers are in increasing order and none is above the
    counter [n]: what [Table.__init__] counts on when it takes the last. *)
Definition ordered_below (n : Z) (l : list document) : Prop :=
  Forall (fun e => is_Some (doc_id e)) l /\
  StronglySorted Z.lt (doc_ids l) /\
  forall z, z ∈ doc_ids l -> z <= n.

(** What [Table.__init__] makes its counter of, over the stored list [l]:
    the ['_id'] of the last document, 0 for the empty list; nothing when the
    last document has no ['_id']. *)
Definition seed (l : list document) : option value :=
  match list.last l with
  | None => Some (VInt 0)
  | Some e => e !! "_id"
  end.

(** Two dicts that differ in ['_id'] at most. *)
Definition same_fields (e e' : document) : Prop :=
  delete "_id" e' = delete "_id" e.

(** A database as [__init__] leaves it: [_table] is bound to the table the
    registry holds for ['_default']. *)
Definition default_table (w : world) (self table : nat) : Prop :=
  (exists d, dbs w !! self = Some d /\ _table d = Some table) /\
  _table_cache w !! "_default" = Some table.

(** ** A running example *)

(** One storage that holds the table ["t"] with two documents, one
    database over it, its table ["t"], and one dict of a caller. *)
Definition ex_docs : list document :=
  [doc [("data", VInt 5); ("_id", VInt 1)];
   doc [("data", VInt 0); ("_id", VInt 2)]].

Definition ex_table : Table := mkTable "t" 0 ∅ (VInt 2).

Definition ex_world : world :=
  mkWorld [Some (Tables {["t" := ex_docs]})] [mkTinyDB 0 None] [ex_table]
          {["t" := 0%nat]} [doc [("data", VInt 7)]].

(** The example table after a [search]: its cache holds a result. *)
Definition ex_cached : Table :=
  mkTable "t" 0 {[KWhere := [doc [("data", VInt 5); ("_id", VInt 1)]]]} (VInt 2).

(** The example world with a second table, ["u"], of one document. *)
Definition ex_two_tables : world :=
  mkWorld [Some (Tables {["t" := ex_docs; "u" := [doc [("_id", VInt 1)]]]})]
          [mkTinyDB 0 None] [ex_table; mkTable "u" 0 ∅ (VInt 1)]
          {["t" := 0%nat; "u" := 1%nat]} [doc [("data", VInt 7)]].

(** * Properties *)

(** ** Running a program of the monad *)

Section Monad.
Context {A B : Type}.

Lemma bind_Return (m : py A) (k : A -> py B) w w1 a :
  m w = (w1, Return a) -> bind m k w = k a w1.
Proof. unfold bind. intros ->. reflexivity. Qed.

Lemma bind_Return_inv (m : py A) (k : A -> py B) w w2 b :
  bind m k w = (w2, Return b) ->
  exists w1 a, m w = (w1, Return a) /\ k a w1 = (w2, Return b).
Proof.
  unfold bind. destruct (m w) as [w1 [a|e]]; intros H.
  - exists w1, a. split; [reflexivity | exact H].
  - discriminate.
Qed.

Lemma bind_ret (a : A) (k : A -> py B) w : bind (ret a) k w = k a w.
Proof. reflexivity. Qed.

End Monad.

Lemma get_db_run w r d : dbs w !! r = Some d -> get_db r w = (w, Return d).
Proof. unfold get_db, bind, gets. intros ->. reflexivity. Qed.

Lemma get_table_run w r t : tables w !! r = Some t -> get_table r w = (w, Return t).
Proof. unfold get_table, bind, gets. intros ->. reflexivity. Qed.

Lemma get_dict_run w r e : dicts w !! r = Some e -> get_dict r w = (w, Return e).
Proof. unfold get_dict, bind, gets. intros ->. reflexivity. Qed.

Lemma storage_read_run w s b :
  backends w !! s = Some b ->
  storage_read s w = (w, match b with Some d => Return d | None => Raise ValueError end).
Proof.
  unfold storage_read, bind, gets. intros ->. destruct b; reflexivity.
Qed.

Lemma storage_write_run w s b values :
  backends w !! s = Some b ->
  storage_write s values w = (set_backends <[s := Some values]> w, Return tt).
Proof. unfold storage_write, bind, gets. intros ->. reflexivity. Qed.

Lemma append_run w l element e :
  dicts w !! element = Some e ->
  append (Docs l) element w = (w, Return (Docs (l ++ [e]))).
Proof.
  intros He. unfold append. erewrite bind_Return by (apply get_dict_run, He).
  reflexivity.
Qed.

(** [run H]: the first statement of the program returns, by [H]. *)
Ltac run H := erewrite bind_Return by (exact H).

(** ** The backend as [TinyDB] reads and writes it *)

Section Backend.
Variables (w : world) (self : nat) (db : TinyDB) (b : backend).
Hypothesis Hdb : dbs w !! self = Some db.
Hypothesis Hb : backends w !! _storage db = Some b.

Lemma TinyDB_read_all_run :
  TinyDB_read_all self w = (w, Return (snapshot b)).
Proof using Hdb Hb.
  unfold TinyDB_read_all. run (get_db_run _ _ _ Hdb).
  unfold try_except. rewrite (storage_read_run _ _ _ Hb).
  destruct b; reflexivity.
Qed.

Lemma TinyDB_read_unnamed table :
  py_not table = true -> TinyDB_read self table w = (w, Return (snapshot b)).
Proof using Hdb Hb.
  unfold TinyDB_read. intros ->. apply TinyDB_read_all_run.
Qed.

Lemma TinyDB_read_named t :
  t <> "" -> TinyDB_read self (Some t) w = (w, Return (Docs (entry (snapshot b) t))).
Proof using Hdb Hb.
  intros Ht. unfold TinyDB_read, py_not. rewrite bool_decide_eq_false_2 by exact Ht.
  unfold try_except. run TinyDB_read_all_run.
  simpl. destruct (snapshot b) as [m|l]; simpl.
  - destruct (m !! t); reflexivity.
  - reflexivity.
Qed.

Lemma TinyDB_write_unnamed values table :
  py_not table = true ->
  TinyDB_write self values table w
  = (set_backends <[_storage db := Some values]> w, Return tt).
Proof using Hdb Hb.
  unfold TinyDB_write, TinyDB_write_all. intros ->.
  run (get_db_run _ _ _ Hdb).
  apply (storage_write_run _ _ _ _ Hb).
Qed.

Lemma TinyDB_write_named t m v :
  t <> "" -> snapshot b = Tables m ->
  TinyDB_write self (Docs v) (Some t) w
  = (set_backends <[_storage db := Some (Tables (<[t := v]> m))]> w, Return tt).
Proof using Hdb Hb.
  intros Ht Hm. unfold TinyDB_write, py_not.
  rewrite bool_decide_eq_false_2 by exact Ht.
  run (TinyDB_read_unnamed None eq_refl).
  rewrite Hm. simpl. rewrite bind_ret. unfold TinyDB_write_all.
  run (get_db_run _ _ _ Hdb).
  apply (storage_write_run _ _ _ _ Hb).
Qed.

(** Over a snapshot that is a list the write of a named table raises:
    [current_data[table] = values] on a list. *)
Lemma TinyDB_write_named_list t l v :
  t <> "" -> b = Some (Docs l) ->
  TinyDB_write self (Docs v) (Some t) w = (w, Raise TypeError).
Proof using Hdb Hb.
  intros Ht Hl. unfold TinyDB_write, py_not.
  rewrite bool_decide_eq_false_2 by exact Ht.
  run (TinyDB_read_unnamed None eq_refl).
  rewrite Hl. reflexivity.
Qed.
End Backend.

(** ** Reading and writing one table of the snapshot *)

(** C8 as the code has it: for every table name but the empty one,
    [TinyDB._read(t)] returns the list the snapshot holds for [t]; the empty
    list when the snapshot has no entry for [t], when nothing decodable is
    stored, and when the snapshot is a list and no dict; and [TinyDB._read()]
    returns the empty dict when the decoding fails.  Nothing is raised and
    the world is left as it was. *)
Theorem TinyDB_read_table w self db b t :
  dbs w !! self = Some db ->
  backends w !! _storage db = Some b ->
  t <> "" ->
  (forall m l, b = Some (Tables m) -> m !! t = Some l ->
     TinyDB_read self (Some t) w = (w, Return (Docs l))) /\
  (forall m, b = Some (Tables m) -> m !! t = None ->
     TinyDB_read self (Some t) w = (w, Return (Docs []))) /\
  (forall l, b = Some (Docs l) ->
     TinyDB_read self (Some t) w = (w, Return (Docs []))) /\
  (b = None ->
     TinyDB_read self (Some t) w = (w, Return (Docs [])) /\
     TinyDB_read self None w = (w, Return (Tables ∅))).
Proof.
  intros Hdb Hb Ht.
  pose proof (TinyDB_read_named w self db b Hdb Hb t Ht) as Hr.
  split; [|split; [|split]].
  - intros m l -> Hl. rewrite Hr. simpl. rewrite Hl. reflexivity.
  - intros m -> Hl. rewrite Hr. simpl. rewrite Hl. reflexivity.
  - intros l ->. rewrite Hr. reflexivity.
  - intros ->. split.
    + rewrite Hr. reflexivity.
    + apply (TinyDB_read_unnamed w self db None Hdb Hb None eq_refl).
Qed.

(** C9 as the code has it: for every table name [t] but the empty one and
    every list [v], when [TinyDB._read()] returns a dict [m] (the snapshot,
    or the empty dict when nothing decodable is stored),
    [TinyDB._write(v, t)] returns and leaves a snapshot that maps [t] to [v]
    and every other name to what [m] maps it to. *)
Theorem TinyDB_write_table w self db b m t v :
  dbs w !! self = Some db ->
  backends w !! _storage db = Some b ->
  TinyDB_read self None w = (w, Return (Tables m)) ->
  t <> "" ->
  exists w' m',
    TinyDB_write self (Docs v) (Some t) w = (w', Return tt) /\
    TinyDB_read self None w' = (w', Return (Tables m')) /\
    m' !! t = Some v /\
    forall t', t' <> t -> m' !! t' = m !! t'.
Proof.
  intros Hdb Hb Hread Ht.
  rewrite (TinyDB_read_unnamed w self db b Hdb Hb None eq_refl) in Hread.
  assert (Hm : snapshot b = Tables m) by congruence.
  eexists _, (<[t := v]> m). split; [|split; [|split]].
  - apply (TinyDB_write_named w self db b Hdb Hb t m v Ht Hm).
  - eapply (TinyDB_read_unnamed _ self db (Some (Tables (<[t := v]> m)))).
    + exact Hdb.
    + simpl. apply list_lookup_insert_eq. eapply lookup_lt_Some, Hb.
    + reflexivity.
  - apply lookup_insert_eq.
  - intros t' Hne. apply lookup_insert_ne. congruence.
Qed.

(** ** A table and its documents *)

Lemma no_cond_key_empty t : no_cond_key (with_cache ∅ t).
Proof. intros c. apply lookup_empty. Qed.

Lemma table_docs_put b nm l v :
  table_docs b nm = Some l -> table_docs (Some (put_docs b nm v)) nm = Some v.
Proof.
  unfold table_docs, put_docs. case_bool_decide as Hnm; [reflexivity|].
  destruct (snapshot b) as [m|l'] eqn:Hs; [|discriminate].
  intros _. simpl. rewrite lookup_insert_eq. reflexivity.
Qed.

Lemma TinyDB_read_docs w db d b nm l :
  dbs w !! db = Some d ->
  backends w !! _storage d = Some b ->
  table_docs b nm = Some l ->
  TinyDB_read db (Some nm) w = (w, Return (Docs l)).
Proof.
  intros Hdb Hb Hl. unfold table_docs in Hl. case_bool_decide as Hnm.
  - rewrite (TinyDB_read_unnamed w _ d b Hdb Hb) by (simpl; rewrite Hnm; reflexivity).
    destruct b as [[m|l']|]; simplify_eq. reflexivity.
  - rewrite (TinyDB_read_named w _ d b Hdb Hb _ Hnm).
    destruct (snapshot b); simplify_eq. reflexivity.
Qed.

Lemma TinyDB_write_docs w db d b nm l v :
  dbs w !! db = Some d ->
  backends w !! _storage d = Some b ->
  table_docs b nm = Some l ->
  TinyDB_write db (Docs v) (Some nm) w
  = (set_backends <[_storage d := Some (put_docs b nm v)]> w, Return tt).
Proof.
  intros Hdb Hb Hl. unfold put_docs. unfold table_docs in Hl.
  case_bool_decide as Hnm.
  - apply (TinyDB_write_unnamed w _ d b Hdb Hb). simpl. rewrite Hnm. reflexivity.
  - destruct (snapshot b) as [m|l'] eqn:Hs; [|discriminate].
    apply (TinyDB_write_named w _ d b Hdb Hb _ m v Hnm Hs).
Qed.

(** *** The methods of a table, run *)

Lemma Table_clear_query_cache_run w self t :
  tables w !! self = Some t ->
  Table_clear_query_cache self w
  = (set_tables <[self := with_cache ∅ t]> w, Return tt).
Proof.
  intros Ht. unfold Table_clear_query_cache. run (get_table_run _ _ _ Ht).
  reflexivity.
Qed.

Lemma Table_read_run w self t l :
  table_at w self t l -> Table_read self w = (w, Return (Docs l)).
Proof.
  intros [Ht (db & b & Hdb & Hb & Hl)].
  unfold Table_read. run (get_table_run _ _ _ Ht).
  exact (TinyDB_read_docs _ _ _ _ _ _ Hdb Hb Hl).
Qed.

Lemma Table_write_run w self t l v :
  table_at w self t l ->
  exists w',
    Table_write self (Docs v) w = (w', Return tt) /\
    table_at w' self (with_cache ∅ t) v /\
    frame w w'.
Proof.
  intros [Ht (db & b & Hdb & Hb & Hl)].
  pose proof (lookup_lt_Some _ _ _ Ht) as Hlt.
  pose proof (lookup_lt_Some _ _ _ Hb) as Hltb.
  set (w1 := set_tables <[self := with_cache ∅ t]> w).
  assert (Ht1 : tables w1 !! self = Some (with_cache ∅ t))
    by (apply list_lookup_insert_eq; exact Hlt).
  exists (set_backends <[_storage db := Some (put_docs b (name t) v)]> w1).
  split; [|split].
  - unfold Table_write. run (Table_clear_query_cache_run _ _ _ Ht).
    fold w1. run (get_table_run _ _ _ Ht1). simpl.
    exact (TinyDB_write_docs w1 _ _ _ _ _ v Hdb Hb Hl).
  - constructor.
    + exact Ht1.
    + exists db, (Some (put_docs b (name t) v)). simpl. split; [exact Hdb|]. split.
      * apply list_lookup_insert_eq. exact Hltb.
      * eapply table_docs_put, Hl.
  - repeat split. simpl. apply length_insert.
Qed.

(** [search] when the condition is no key of the cache: the scan, kept
    under the key [where]. *)
Lemma Table_search_run w self t l cond :
  table_at w self t l ->
  _queries_cache t !! KQuery cond = None ->
  let elems := filter (fun e => eval cond e = true) l in
  let t' := with_cache (<[KWhere := elems]> (_queries_cache t)) t in
  Table_search self cond w = (set_tables <[self := t']> w, Return elems) /\
  table_at (set_tables <[self := t']> w) self t' l.
Proof.
  intros Hat Hc elems t'. pose proof Hat as [Ht (db & b & Hdb & Hb & Hl)].
  split.
  - unfold Table_search. run (get_table_run _ _ _ Ht).
    rewrite bool_decide_eq_false_2
      by (rewrite Hc; intros [? ?]; discriminate).
    unfold Table_all. run (Table_read_run _ _ _ _ Hat).
    simpl. rewrite bind_ret. run (get_table_run _ _ _ Ht). reflexivity.
  - constructor.
    + apply list_lookup_insert_eq. eapply lookup_lt_Some, Ht.
    + exists db, b. auto.
Qed.

(** [search] when the condition is a key of the cache: whatever the key
    [where] holds. *)
Lemma Table_search_hit w self t cond r :
  tables w !! self = Some t ->
  is_Some (_queries_cache t !! KQuery cond) ->
  _queries_cache t !! KWhere = Some r ->
  Table_search self cond w = (w, Return r).
Proof.
  intros Ht Hc Hr. unfold Table_search. run (get_table_run _ _ _ Ht).
  rewrite bool_decide_eq_true_2 by exact Hc. rewrite Hr. reflexivity.
Qed.

Lemma Table_insert_run w self t l n element e :
  table_at w self t l ->
  _last_id t = VInt n ->
  dicts w !! element = Some e ->
  let e' := <["_id" := VInt (n + 1)]> e in
  exists w',
    Table_insert self element w = (w', Return tt) /\
    table_at w' self (mkTable (name t) (_db t) ∅ (VInt (n + 1))) (l ++ [e']) /\
    dicts w' = <[element := e']> (dicts w) /\
    _table_cache w' = _table_cache w /\
    length (tables w') = length (tables w).
Proof.
  intros Hat Hn He e'. pose proof Hat as [Ht (db & b & Hdb & Hb & Hl)].
  pose proof (lookup_lt_Some _ _ _ Ht) as Hlt.
  pose proof (lookup_lt_Some _ _ _ He) as Hlte.
  set (t1 := with_last_id (VInt (n + 1)) t).
  set (w1 := set_dicts <[element := e']> (set_tables <[self := t1]> w)).
  assert (Hat1 : table_at w1 self t1 l).
  { constructor.
    - apply list_lookup_insert_eq. exact Hlt.
    - exists db, b. auto. }
  destruct (Table_write_run w1 self t1 l (l ++ [e']) Hat1)
    as (w' & Hw & Hat' & Hd & _ & Hc' & Hlen).
  exists w'. split; [|split; [|split; [|split]]].
  - unfold Table_insert. run (get_table_run _ _ _ Ht).
    rewrite Hn. simpl. rewrite bind_ret.
    unfold set_table at 1, bind at 1, modify at 1.
    run (get_dict_run (set_tables <[self := t1]> w) _ _ He).
    unfold set_dict at 1, bind at 1, modify at 1.
    fold e' t1 w1.
    run (Table_read_run _ _ _ _ Hat1).
    assert (He1 : dicts w1 !! element = Some e')
      by (apply list_lookup_insert_eq; exact Hlte).
    run (append_run _ l _ _ He1). exact Hw.
  - exact Hat'.
  - rewrite Hd. reflexivity.
  - rewrite Hc'. reflexivity.
  - rewrite Hlen. simpl. apply length_insert.
Qed.

(** [remove], given what its [search] answers. *)
Lemma Table_remove_after w self cond w1 t1 l to_remove :
  Table_search self cond w = (w1, Return to_remove) ->
  table_at w1 self t1 l ->
  exists w',
    Table_remove self cond w = (w', Return tt) /\
    table_at w' self (with_cache ∅ t1) (filter (fun e => e ∉ to_remove) l) /\
    frame w1 w'.
Proof.
  intros Hs Hat1.
  destruct (Table_write_run w1 self t1 l (filter (fun e => e ∉ to_remove) l) Hat1)
    as (w' & Hw & Hat' & Hf).
  exists w'. split; [|split].
  - unfold Table_remove. run Hs.
    unfold Table_all. run (Table_read_run _ _ _ _ Hat1).
    simpl. rewrite bind_ret. exact Hw.
  - exact Hat'.
  - exact Hf.
Qed.

Lemma Table_remove_run w self t l cond :
  table_at w self t l ->
  _queries_cache t !! KQuery cond = None ->
  let to_remove := filter (fun e => eval cond e = true) l in
  exists w',
    Table_remove self cond w = (w', Return tt) /\
    table_at w' self (with_cache ∅ t) (filter (fun e => e ∉ to_remove) l) /\
    frame w w'.
Proof.
  intros Hat Hc to_remove.
  destruct (Table_search_run w self t l cond Hat Hc) as [Hs Hat1].
  destruct (Table_remove_after _ _ _ _ _ _ _ Hs Hat1) as (w' & Hr & Hat' & Hf).
  exists w'. split; [exact Hr|]. split; [exact Hat'|].
  destruct Hf as (Hd & Hdbs & Hc' & Hlen). repeat split; try assumption.
  rewrite Hlen. simpl. apply length_insert.
Qed.

Lemma Table_purge_run w self t l :
  table_at w self t l ->
  exists w',
    Table_purge self w = (w', Return tt) /\
    table_at w' self (with_cache ∅ t) [] /\
    frame w w'.
Proof. intros Hat. exact (Table_write_run w self t l [] Hat). Qed.

(** [__init__] over a table whose stored list is [l]: the last document
    decides. *)
Lemma Table_init_run w nm db l :
  TinyDB_read db (Some nm) w = (w, Return (Docs l)) ->
  Table_init nm db w =
  match list.last l with
  | None => new_table (mkTable nm db ∅ (VInt 0)) w
  | Some e =>
      match e !! "_id" with
      | Some v => new_table (mkTable nm db ∅ v) w
      | None => (w, Raise KeyError)
      end
  end.
Proof.
  intros Hr. unfold Table_init, bind at 1, try_except.
  run Hr. simpl. destruct (list.last l) as [e|]; simpl.
  - unfold bind at 1, ret. simpl. destruct (e !! "_id"); reflexivity.
  - reflexivity.
Qed.

Lemma new_table_at w nm db d b l v :
  dbs w !! db = Some d ->
  backends w !! _storage d = Some b ->
  table_docs b nm = Some l ->
  let t := mkTable nm db ∅ v in
  let w' := set_tables (fun ts => ts ++ [t]) w in
  new_table t w = (w', Return (length (tables w))) /\
  table_at w' (length (tables w)) t l.
Proof.
  intros Hdb Hb Hl t w'. split; [reflexivity|]. constructor.
  - simpl. rewrite lookup_app_r by lia. rewrite Nat.sub_diag. reflexivity.
  - exists d, b. auto.
Qed.

(** ** The running example *)

Lemma ex_table_at : table_at ex_world 0 ex_table ex_docs.
Proof.
  constructor; [reflexivity|].
  exists (mkTinyDB 0 None), (Some (Tables {["t" := ex_docs]})).
  repeat split.
Qed.

Lemma ex_no_cond_key : no_cond_key ex_table.
Proof. intros c. apply lookup_empty. Qed.

(** ** The reads and writes of [TinyDB], at the example and at the empty name *)

Lemma TinyDB_read_table_witness :
  TinyDB_read 0 (Some "t") ex_world = (ex_world, Return (Docs ex_docs)) /\
  TinyDB_read 0 (Some "u") ex_world = (ex_world, Return (Docs [])).
Proof.
  pose proof (TinyDB_read_table ex_world 0 (mkTinyDB 0 None)
                (Some (Tables {["t" := ex_docs]})) "t")
    as (Hin & _); [reflexivity | reflexivity | discriminate |].
  pose proof (TinyDB_read_table ex_world 0 (mkTinyDB 0 None)
                (Some (Tables {["t" := ex_docs]})) "u")
    as (_ & Hout & _); [reflexivity | reflexivity | discriminate |].
  split.
  - apply (Hin {["t" := ex_docs]}); reflexivity.
  - apply (Hout {["t" := ex_docs]}); reflexivity.
Defined.

(** C8 fails at the empty name: [not ''] holds, and [TinyDB._read('')]
    returns the whole snapshot, a dict, where the snapshot holds a list under
    the name. *)
Lemma TinyDB_read_empty_name :
  let l := [doc [("data", VInt 5); ("_id", VInt 1)]] in
  let m : gmap string (list document) := {["" := l]} in
  let w := mkWorld [Some (Tables m)] [mkTinyDB 0 None] [] ∅ [] in
  m !! "" = Some l /\
  TinyDB_read 0 (Some "") w = (w, Return (Tables m)) /\
  TinyDB_read 0 (Some "") w <> (w, Return (Docs l)).
Proof.
  intros l m w. split; [reflexivity|].
  assert (H : TinyDB_read 0 (Some "") w = (w, Return (Tables m))) by reflexivity.
  split; [exact H|]. rewrite H. intros Heq. discriminate Heq.
Qed.

Lemma TinyDB_write_table_witness :
  exists w' m',
    TinyDB_write 0 (Docs []) (Some "u") ex_world = (w', Return tt) /\
    TinyDB_read 0 None w' = (w', Return (Tables m')) /\
    m' !! "u" = Some [] /\
    forall t', t' <> "u" ->
      m' !! t' = ({["t" := ex_docs]} : gmap string (list document)) !! t'.
Proof.
  apply (TinyDB_write_table ex_world 0 (mkTinyDB 0 None)
           (Some (Tables {["t" := ex_docs]})) {["t" := ex_docs]} "u" []);
    [reflexivity | reflexivity | reflexivity | discriminate].
Defined.

(** C9 fails at the empty name: [TinyDB._write(v, '')] replaces the whole
    snapshot by the list [v]; the entry of the table ["a"] is gone. *)
Lemma TinyDB_write_empty_name :
  let l := [doc [("data", VInt 5); ("_id", VInt 1)]] in
  let w := mkWorld [Some (Tables {["a" := l]})] [mkTinyDB 0 None] [] ∅ [] in
  let w' := mkWorld [Some (Docs [])] [mkTinyDB 0 None] [] ∅ [] in
  TinyDB_read 0 (Some "a") w = (w, Return (Docs l)) /\
  TinyDB_write 0 (Docs []) (Some "") w = (w', Return tt) /\
  TinyDB_read 0 None w' = (w', Return (Docs [])) /\
  TinyDB_read 0 (Some "a") w' = (w', Return (Docs [])).
Proof. intros l w w'. repeat split. Qed.

(** ** [search] and its cache *)

(** C1, what the code does: a [search] for [cond] on a table as the methods
    leave it scans the stored list and returns the matches, and it keeps
    them under the one key [where], not under [cond]: afterwards [cond] is
    still no key of the cache, so that the same [search] again scans
    again. *)
Theorem Table_search_keeps_under_where w self t l cond :
  table_at w self t l ->
  no_cond_key t ->
  let elems := filter (fun e => eval cond e = true) l in
  exists w' t',
    Table_search self cond w = (w', Return elems) /\
    tables w' !! self = Some t' /\
    _queries_cache t' !! KWhere = Some elems /\
    _queries_cache t' !! KQuery cond = None /\
    exists w'', Table_search self cond w' = (w'', Return elems) /\ w'' = w'.
Proof.
  intros Hat Hc elems.
  destruct (Table_search_run w self t l cond Hat (Hc cond)) as [Hs Hat1].
  fold elems in Hs, Hat1.
  set (t' := with_cache (<[KWhere := elems]> (_queries_cache t)) t) in *.
  assert (Hc' : no_cond_key t').
  { intros c. simpl. rewrite lookup_insert_ne by discriminate. apply Hc. }
  exists (set_tables <[self := t']> w), t'.
  split; [exact Hs|]. split; [apply Hat1|].
  split; [apply lookup_insert_eq|]. split; [apply Hc'|].
  destruct (Table_search_run _ self t' l cond Hat1 (Hc' cond)) as [Hs2 _].
  eexists. split; [exact Hs2|].
  destruct w as [bs ds ts tc dc]. unfold set_tables. simpl. f_equal.
  rewrite list_insert_insert_eq. f_equal. unfold t', with_cache. simpl.
  f_equal. apply insert_insert_eq.
Qed.

Lemma Table_search_keeps_under_where_witness :
  let cond := QEq "data" (VInt 5) in
  let elems := [doc [("data", VInt 5); ("_id", VInt 1)]] in
  exists w' t',
    Table_search 0 cond ex_world = (w', Return elems) /\
    tables w' !! 0%nat = Some t' /\
    _queries_cache t' !! KWhere = Some elems /\
    _queries_cache t' !! KQuery cond = None /\
    exists w'', Table_search 0 cond w' = (w'', Return elems) /\ w'' = w'.
Proof.
  exact (Table_search_keeps_under_where ex_world 0 ex_table ex_docs
           (QEq "data" (VInt 5)) ex_table_at ex_no_cond_key).
Defined.

(** ** [insert] *)

(** C10: [insert] writes into the caller's dict.  After the call the dict
    the caller passed holds ['_id'], the counter plus one, and is otherwise
    as it was; it is this stamped dict that the stored list ends with, and
    no other dict of the caller has changed. *)
Theorem Table_insert_stamps_argument w self t l n element e :
  table_at w self t l ->
  _last_id t = VInt n ->
  dicts w !! element = Some e ->
  exists w',
    Table_insert self element w = (w', Return tt) /\
    dicts w' !! element = Some (<["_id" := VInt (n + 1)]> e) /\
    (forall other, other <> element -> dicts w' !! other = dicts w !! other) /\
    Table_all self w' = (w', Return (Docs (l ++ [<["_id" := VInt (n + 1)]> e]))).
Proof.
  intros Hat Hn He.
  destruct (Table_insert_run w self t l n element e Hat Hn He)
    as (w' & Hi & Hat' & Hd & _).
  exists w'. split; [exact Hi|]. rewrite Hd. split; [|split].
  - apply list_lookup_insert_eq. eapply lookup_lt_Some, He.
  - intros other Hne. apply list_lookup_insert_ne. congruence.
  - apply (Table_read_run _ _ _ _ Hat').
Qed.

Lemma Table_insert_stamps_argument_witness :
  exists w',
    Table_insert 0 0 ex_world = (w', Return tt) /\
    dicts w' !! 0%nat = Some (<["_id" := VInt (2 + 1)]> (doc [("data", VInt 7)])) /\
    (forall other, other <> 0%nat -> dicts w' !! other = dicts ex_world !! other) /\
    Table_all 0 w'
    = (w', Return (Docs (ex_docs ++ [<["_id" := VInt (2 + 1)]> (doc [("data", VInt 7)])]))).
Proof.
  apply (Table_insert_stamps_argument ex_world 0 ex_table ex_docs 2 0
           (doc [("data", VInt 7)]) ex_table_at); reflexivity.
Defined.

(** C3 fails: a document that has ['_id'] is inserted as any other; the
    call returns, the counter moves on and the snapshot grows. *)
Lemma Table_insert_accepts_id :
  let e := doc [("data", VInt 7); ("_id", VInt 40)] in
  let w := mkWorld [Some (Tables ∅)] [mkTinyDB 0 None] [mkTable "t" 0 ∅ (VInt 0)] ∅ [e] in
  is_Some (e !! "_id") /\
  exists w',
    Table_insert 0 0 w = (w', Return tt) /\
    backends w' <> backends w /\
    backends w' = [Some (Tables {["t" := [doc [("data", VInt 7); ("_id", VInt 1)]]]})] /\
    _last_id <$> tables w' !! 0%nat = Some (VInt 1).
Proof.
  intros e w. split; [eexists; reflexivity|].
  eexists. split; [reflexivity|]. split; [|split; reflexivity].
  intros Heq. vm_compute in Heq. discriminate Heq.
Qed.

(** C3 as the code has it: [insert] looks for no ['_id'] in its argument.
    For a document that has one the call returns all the same; the counter
    is incremented, the ['_id'] the caller gave is overwritten by the new
    counter, and the document so stamped is appended to the stored list. *)
Theorem Table_insert_overwrites_id w self t l n element e :
  table_at w self t l ->
  _last_id t = VInt n ->
  dicts w !! element = Some e ->
  is_Some (e !! "_id") ->
  exists w' t' e',
    Table_insert self element w = (w', Return tt) /\
    table_at w' self t' (l ++ [e']) /\
    _last_id t' = VInt (n + 1) /\
    e' !! "_id" = Some (VInt (n + 1)) /\
    (forall k, k <> "_id" -> e' !! k = e !! k).
Proof.
  intros Hat Hn He _.
  destruct (Table_insert_run w self t l n element e Hat Hn He)
    as (w' & Hi & Hat' & _).
  eexists w', _, _. split; [exact Hi|]. split; [exact Hat'|].
  split; [reflexivity|]. split.
  - apply lookup_insert_eq.
  - intros k Hk. apply lookup_insert_ne. congruence.
Qed.

Lemma Table_insert_overwrites_id_witness :
  let e := doc [("data", VInt 7); ("_id", VInt 40)] in
  let w := mkWorld [Some (Tables {["t" := ex_docs]})] [mkTinyDB 0 None]
                   [ex_table] ∅ [e] in
  exists w' t' e',
    Table_insert 0 0 w = (w', Return tt) /\
    table_at w' 0 t' (ex_docs ++ [e']) /\
    _last_id t' = VInt (2 + 1) /\
    e' !! "_id" = Some (VInt (2 + 1)) /\
    (forall k, k <> "_id" -> e' !! k = e !! k).
Proof.
  intros e w.
  apply (Table_insert_overwrites_id w 0 ex_table ex_docs 2 0 e).
  - constructor; [reflexivity|].
    exists (mkTinyDB 0 None), (Some (Tables {["t" := ex_docs]})). repeat split.
  - reflexivity.
  - reflexivity.
  - eexists; reflexivity.
Defined.

(** ** [remove] *)

(** C6 fails for a document of identical content and another identifier:
    the identifier is the field ['_id'] of the dict, such a document is equal
    to no matched one, and it stays.  Here the condition matches the first
    of two documents that differ in ['_id'] alone. *)
Lemma Table_remove_keeps_other_identifier :
  let a := doc [("data", VInt 5); ("_id", VInt 1)] in
  let b := doc [("data", VInt 5); ("_id", VInt 2)] in
  let cond := QEq "_id" (VInt 1) in
  let w := mkWorld [Some (Tables {["t" := [a; b]]})] [mkTinyDB 0 None]
                   [ex_table] ∅ [] in
  eval cond a = true /\
  eval cond b = false /\
  delete "_id" a = delete "_id" b /\
  a !! "_id" <> b !! "_id" /\
  exists w',
    Table_remove 0 cond w = (w', Return tt) /\
    Table_all 0 w' = (w', Return (Docs [b])).
Proof.
  intros a b cond w. split; [reflexivity|]. split; [reflexivity|].
  split; [reflexivity|]. split; [discriminate|].
  eexists. split; reflexivity.
Qed.

(** C6 as the code has it: [remove(cond)] returns and leaves, as the stored
    list of the table, the list it had without the documents equal to one
    that [cond] matches, the others in their order: a document of the list
    stays exactly when it is equal to no document of the list that [cond]
    matches.  Equality is that of dicts, over all fields, ['_id'] among them:
    a document whose ['_id'] is that of no matched document stays, whatever
    its other fields. *)
Theorem Table_remove_equal_documents w self t l cond :
  table_at w self t l ->
  no_cond_key t ->
  let matched := filter (fun e => eval cond e = true) l in
  exists w' l',
    Table_remove self cond w = (w', Return tt) /\
    Table_all self w' = (w', Return (Docs l')) /\
    l' = filter (fun e => e ∉ matched) l /\
    (forall e, e ∈ l' <->
       e ∈ l /\ ~ exists m, m ∈ l /\ eval cond m = true /\ e = m) /\
    (forall e, e ∈ l ->
       (forall m, m ∈ l -> eval cond m = true -> e !! "_id" <> m !! "_id") ->
       e ∈ l').
Proof.
  intros Hat Hc matched.
  destruct (Table_remove_run w self t l cond Hat (Hc cond)) as (w' & Hr & Hat' & _).
  fold matched in Hat'.
  exists w', (filter (fun e => e ∉ matched) l).
  split; [exact Hr|]. split; [apply (Table_read_run _ _ _ _ Hat')|].
  split; [reflexivity|].
  assert (Hiff : forall e, e ∈ filter (fun e => e ∉ matched) l <->
            e ∈ l /\ ~ exists m, m ∈ l /\ eval cond m = true /\ e = m).
  { intros e. rewrite list_elem_of_filter. unfold matched. split.
    - intros [Hn He]. split; [exact He|]. intros (m & Hm & Hev & ->).
      apply Hn. apply list_elem_of_filter. auto.
    - intros [He Hn]. split; [|exact He]. intros Hin.
      apply list_elem_of_filter in Hin as [Hev Hin]. apply Hn. exists e. auto. }
  split; [exact Hiff|].
  intros e He Hid. apply Hiff. split; [exact He|].
  intros (m & Hm & Hev & ->). exact (Hid m Hm Hev eq_refl).
Qed.

Lemma Table_remove_equal_documents_witness :
  exists w' l',
    Table_remove 0 (QEq "data" (VInt 5)) ex_world = (w', Return tt) /\
    Table_all 0 w' = (w', Return (Docs l')) /\
    l' = [doc [("data", VInt 0); ("_id", VInt 2)]] /\
    (forall e, e ∈ l' <->
       e ∈ ex_docs /\
       ~ exists m, m ∈ ex_docs /\ eval (QEq "data" (VInt 5)) m = true /\ e = m) /\
    (forall e, e ∈ ex_docs ->
       (forall m, m ∈ ex_docs -> eval (QEq "data" (VInt 5)) m = true ->
          e !! "_id" <> m !! "_id") ->
       e ∈ l').
Proof.
  exact (Table_remove_equal_documents ex_world 0 ex_table ex_docs
           (QEq "data" (VInt 5)) ex_table_at ex_no_cond_key).
Defined.

(** ** Mutations and the cache *)

(** C5: whatever its cache holds before, after [insert], [remove] or [purge]
    the cache of the table is the empty dict, and a [search] for any
    condition returns the matches among the documents the table has then:
    it scans. *)
Theorem mutation_clears_query_cache w self t l m :
  table_at w self t l ->
  ready w t m ->
  exists w' t' l',
    mutate self m w = (w', Return tt) /\
    table_at w' self t' l' /\
    _queries_cache t' = ∅ /\
    forall cond, exists w'',
      Table_search self cond w' = (w'', Return (filter (fun e => eval cond e = true) l')).
Proof.
  intros Hat Hready.
  assert (Hsearch : forall w' t' l', table_at w' self t' l' -> _queries_cache t' = ∅ ->
            forall cond, exists w'',
              Table_search self cond w'
              = (w'', Return (filter (fun e => eval cond e = true) l'))).
  { intros w' t' l' Hat' Hempty cond.
    destruct (Table_search_run w' self t' l' cond Hat') as [Hs _].
    - rewrite Hempty. apply lookup_empty.
    - eexists. exact Hs. }
  destruct m as [element|cond|]; simpl in *.
  - destruct Hready as [[n Hn] [e He]].
    destruct (Table_insert_run w self t l n element e Hat Hn He)
      as (w' & Hi & Hat' & _).
    eexists w', _, _. split; [exact Hi|]. split; [exact Hat'|].
    split; [reflexivity|]. apply (Hsearch _ _ _ Hat'). reflexivity.
  - destruct (_queries_cache t !! KQuery cond) as [x|] eqn:Hk.
    + destruct Hready as [Hnone|[r Hr]]; [discriminate|].
      assert (Hs : Table_search self cond w = (w, Return r)).
      { apply (Table_search_hit w self t cond r); [apply Hat|rewrite Hk; eauto|exact Hr]. }
      destruct (Table_remove_after _ _ _ _ _ _ _ Hs Hat) as (w' & Hrm & Hat' & _).
      eexists w', _, _. split; [exact Hrm|]. split; [exact Hat'|].
      split; [reflexivity|]. apply (Hsearch _ _ _ Hat'). reflexivity.
    + destruct (Table_remove_run w self t l cond Hat Hk) as (w' & Hrm & Hat' & _).
      eexists w', _, _. split; [exact Hrm|]. split; [exact Hat'|].
      split; [reflexivity|]. apply (Hsearch _ _ _ Hat'). reflexivity.
  - destruct (Table_purge_run w self t l Hat) as (w' & Hp & Hat' & _).
    eexists w', _, _. split; [exact Hp|]. split; [exact Hat'|].
    split; [reflexivity|]. apply (Hsearch _ _ _ Hat'). reflexivity.
Qed.

Lemma mutation_clears_query_cache_witness :
  let w := mkWorld [Some (Tables {["t" := ex_docs]})] [mkTinyDB 0 None]
                   [ex_cached] ∅ [doc [("data", VInt 5)]] in
  _queries_cache ex_cached <> ∅ /\
  exists w' t' l',
    mutate 0 (Insert 0) w = (w', Return tt) /\
    table_at w' 0 t' l' /\
    _queries_cache t' = ∅ /\
    forall cond, exists w'',
      Table_search 0 cond w' = (w'', Return (filter (fun e => eval cond e = true) l')).
Proof.
  intros w. split.
  - intros Heq. apply (f_equal (fun c => c !! KWhere)) in Heq. discriminate Heq.
  - apply (mutation_clears_query_cache w 0 ex_cached ex_docs (Insert 0)).
    + constructor; [reflexivity|].
      exists (mkTinyDB 0 None), (Some (Tables {["t" := ex_docs]})). repeat split.
    + split; [exists 2; reflexivity | eexists; reflexivity].
Defined.

(** ** The identifiers a table assigns *)

Lemma StronglySorted_seqZ m n : StronglySorted Z.lt (seqZ m n).
Proof.
  destruct (decide (n <= 0)) as [Hn|Hn].
  - rewrite seqZ_nil by exact Hn. constructor.
  - rewrite <- (Z2Nat.id n) by lia. generalize (Z.to_nat n) as k. clear.
    induction k as [|k IH].
    + rewrite seqZ_nil by reflexivity. constructor.
    + rewrite seqZ_S. apply StronglySorted_app_2; [|exact IH|repeat constructor].
      intros x1 x2 Hx1 Hx2. apply elem_of_seqZ in Hx1.
      apply list_elem_of_singleton in Hx2. lia.
Qed.

Lemma assigned_run ms : forall w self t l n,
  table_at w self t l ->
  no_cond_key t ->
  _last_id t = VInt n ->
  Forall (allocated w) ms ->
  exists w',
    assigned self ms w
    = (w', Return (VInt <$> seqZ (n + 1) (Z.of_nat (length (filter is_insert ms))))).
Proof.
  induction ms as [|m ms IH]; intros w self t l n Hat Hc Hn Hall.
  - exists w. reflexivity.
  - apply Forall_cons in Hall as [Hm Hall].
    assert (Hmono : forall w', length (dicts w') = length (dicts w) ->
              Forall (allocated w') ms).
    { intros w' Hlen. eapply Forall_impl; [exact Hall|].
      intros [element| |]; simpl; rewrite ?Hlen; auto. }
    destruct m as [element|cond|]; simpl in Hm |- *.
    + destruct (lookup_lt_is_Some_2 _ _ Hm) as [e He].
      destruct (Table_insert_run w self t l n element e Hat Hn He)
        as (w1 & Hi & Hat1 & Hd & _).
      destruct (IH w1 self _ _ (n + 1) Hat1 (no_cond_key_empty t) eq_refl) as [w' Hrun].
      { apply Hmono. rewrite Hd. apply length_insert. }
      exists w'. run Hi.
      assert (He1 : dicts w1 !! element = Some (<["_id" := VInt (n + 1)]> e))
        by (rewrite Hd; apply list_lookup_insert_eq; exact Hm).
      run (get_dict_run _ _ _ He1). rewrite lookup_insert_eq. simpl.
      rewrite bind_ret. run Hrun. unfold ret. do 2 f_equal.
      rewrite (seqZ_cons (n + 1)) by lia. simpl. do 3 f_equal; lia.
    + destruct (Table_remove_run w self t l cond Hat (Hc cond))
        as (w1 & Hr & Hat1 & Hd & _).
      destruct (IH w1 self _ _ n Hat1 (no_cond_key_empty t) Hn (Hmono _ (f_equal length Hd)))
        as [w' Hrun].
      exists w'. run Hr. exact Hrun.
    + destruct (Table_purge_run w self t l Hat) as (w1 & Hp & Hat1 & Hd & _).
      destruct (IH w1 self _ _ n Hat1 (no_cond_key_empty t) Hn (Hmono _ (f_equal length Hd)))
        as [w' Hrun].
      exists w'. run Hp. exact Hrun.
Qed.

(** Over an empty backend a table is constructed for every name but the
    empty one, for which [dict.pop()] raises. *)
Lemma Table_init_empty_backend w nm db d b :
  dbs w !! db = Some d ->
  backends w !! _storage d = Some b ->
  b = None \/ b = Some (Tables ∅) ->
  if bool_decide (nm = "") then Table_init nm db w = (w, Raise TypeError)
  else table_docs b nm = Some [].
Proof.
  intros Hdb Hb Hempty. case_bool_decide as Hnm.
  - subst nm. unfold Table_init, bind at 1, try_except.
    erewrite bind_Return
      by (apply (TinyDB_read_unnamed w db d b Hdb Hb (Some "")); reflexivity).
    destruct Hempty as [-> | ->]; reflexivity.
  - unfold table_docs. rewrite bool_decide_eq_false_2 by exact Hnm.
    destruct Hempty as [-> | ->]; reflexivity.
Qed.

(** C7: on a table constructed over an empty backend, whatever the sequence
    of [insert]s, [remove]s and [purge]s, every call returns and the
    [insert]s assign, in their order, the identifiers 1, 2, 3, ...: a
    strictly increasing sequence without repeats, that a [remove] in between
    does not set back. *)
Theorem inserts_assign_increasing_ids w nm db d b w1 self ms :
  dbs w !! db = Some d ->
  backends w !! _storage d = Some b ->
  b = None \/ b = Some (Tables ∅) ->
  Table_init nm db w = (w1, Return self) ->
  Forall (allocated w) ms ->
  exists w2 ids,
    assigned self ms w1 = (w2, Return (VInt <$> ids)) /\
    ids = seqZ 1 (Z.of_nat (length (filter is_insert ms))) /\
    StronglySorted Z.lt ids /\
    NoDup ids.
Proof.
  intros Hdb Hb Hempty Hinit Hall.
  pose proof (Table_init_empty_backend w nm db d b Hdb Hb Hempty) as Hl.
  case_bool_decide as Hnm; [congruence|].
  pose proof (TinyDB_read_docs w db d b nm [] Hdb Hb Hl) as Hr.
  pose proof (Table_init_run w nm db [] Hr) as Hrun. simpl in Hrun.
  destruct (new_table_at w nm db d b [] (VInt 0) Hdb Hb Hl) as [Hnew Hat].
  rewrite Hnew, Hinit in Hrun. injection Hrun as -> ->.
  destruct (assigned_run ms _ _ _ _ 0 Hat
              (no_cond_key_empty (mkTable nm db ∅ (VInt 0))) eq_refl Hall)
    as [w2 Hrun].
  eexists w2, _. split; [exact Hrun|].
  split; [reflexivity|]. split; [apply StronglySorted_seqZ | apply NoDup_seqZ].
Qed.

Lemma inserts_assign_increasing_ids_witness :
  let w := mkWorld [None] [mkTinyDB 0 None] [] ∅
                   [doc [("data", VInt 0)]; doc [("data", VInt 1)]] in
  let w1 := mkWorld [None] [mkTinyDB 0 None] [mkTable "t" 0 ∅ (VInt 0)] ∅
                    [doc [("data", VInt 0)]; doc [("data", VInt 1)]] in
  let ms := [Insert 0; Insert 1; Remove (QEq "data" (VInt 0)); Insert 0] in
  Table_init "t" 0 w = (w1, Return 0%nat) /\
  exists w2 ids,
    assigned 0 ms w1 = (w2, Return (VInt <$> ids)) /\
    ids = [1; 2; 3] /\
    StronglySorted Z.lt ids /\
    NoDup ids.
Proof.
  intros w w1 ms. split; [reflexivity|].
  apply (inserts_assign_increasing_ids w "t" 0 (mkTinyDB 0 None) None w1 0 ms);
    [reflexivity | reflexivity | left; reflexivity | reflexivity |].
  repeat constructor.
Defined.

(** ** The counter at construction *)

(** C2 fails on a list that is not in the order of its identifiers: over
    the documents 3, 2 the counter starts at 2 and not at 3, and the next
    [insert] assigns 3 a second time. *)
Lemma Table_init_takes_last :
  let l := [doc [("_id", VInt 3)]; doc [("_id", VInt 2)]] in
  let w := mkWorld [Some (Tables {["t" := l]})] [mkTinyDB 0 None] [] ∅ [doc []] in
  exists w1 w2,
    Table_init "t" 0 w = (w1, Return 0%nat) /\
    _last_id <$> tables w1 !! 0%nat = Some (VInt 2) /\
    foldr Z.max 0 (doc_ids l) = 3 /\
    Table_insert 0 0 w1 = (w2, Return tt) /\
    backends w2 = [Some (Tables {["t" := l ++ [doc [("_id", VInt 3)]]]})].
Proof. intros l w. eexists _, _. repeat split. Qed.

Lemma doc_ids_snoc l e z : doc_id e = Some z -> doc_ids (l ++ [e]) = doc_ids l ++ [z].
Proof. intros He. unfold doc_ids. rewrite omap_app. simpl. rewrite He. reflexivity. Qed.

(** C2 as the code has it: the counter is seeded with the ['_id'] of the
    last document of the list stored for the table, 0 when the table is
    empty or absent.  When the stored list is in the increasing order of its
    identifiers, this is the greatest of them, and the next [insert]
    assigns an identifier that no stored document has. *)
Theorem Table_init_seeds_counter w nm db d b l :
  dbs w !! db = Some d ->
  backends w !! _storage d = Some b ->
  table_docs b nm = Some l ->
  Forall (fun e => is_Some (doc_id e)) l ->
  exists w' self t,
    Table_init nm db w = (w', Return self) /\
    table_at w' self t l /\
    _last_id t = VInt (last_doc_id l) /\
    (l = [] -> last_doc_id l = 0) /\
    (StronglySorted Z.lt (doc_ids l) ->
       (forall z, z ∈ doc_ids l -> z <= last_doc_id l) /\
       (l <> [] -> last_doc_id l ∈ doc_ids l) /\
       forall element e, dicts w' !! element = Some e ->
         exists w'',
           Table_insert self element w' = (w'', Return tt) /\
           dicts w'' !! element ≫= doc_id = Some (last_doc_id l + 1) /\
           last_doc_id l + 1 ∉ doc_ids l).
Proof.
  intros Hdb Hb Hl Hids.
  pose proof (TinyDB_read_docs w db d b nm l Hdb Hb Hl) as Hr.
  pose proof (Table_init_run w nm db l Hr) as Hinit.
  destruct (new_table_at w nm db d b l (VInt (last_doc_id l)) Hdb Hb Hl) as [Hnew Hat].
  assert (Hrun : Table_init nm db w
                 = new_table (mkTable nm db ∅ (VInt (last_doc_id l))) w).
  { rewrite Hinit. unfold last_doc_id.
    destruct (list.last l) as [e|] eqn:Hlast; [|reflexivity].
    apply last_Some in Hlast as [l' ->].
    apply Forall_app in Hids as [_ He]. apply Forall_singleton in He as [z Hz].
    simpl. rewrite Hz. unfold doc_id in Hz.
    destruct (e !! "_id") as [[]|]; simplify_eq. reflexivity. }
  rewrite Hnew in Hrun.
  eexists _, _, _. split; [exact Hrun|]. split; [exact Hat|].
  split; [reflexivity|]. split; [intros ->; reflexivity|].
  intros Hsorted.
  assert (Hmax : forall z, z ∈ doc_ids l -> z <= last_doc_id l).
  { intros z Hz. unfold last_doc_id.
    destruct (list.last l) as [e|] eqn:Hlast.
    - apply last_Some in Hlast as [l' ->].
      apply Forall_app in Hids as [_ He]. apply Forall_singleton in He as [z' Hz'].
      simpl. rewrite Hz'. simpl. rewrite (doc_ids_snoc _ _ _ Hz') in Hz, Hsorted.
      apply elem_of_app in Hz as [Hz|Hz].
      + apply Z.lt_le_incl.
        apply (StronglySorted_app_1_elem_of _ _ _ _ _ Hsorted Hz).
        apply list_elem_of_singleton. reflexivity.
      + apply list_elem_of_singleton in Hz. lia.
    - apply last_None in Hlast as ->. inversion Hz. }
  split; [exact Hmax|]. split.
  - intros Hne. unfold last_doc_id.
    destruct (list.last l) as [e|] eqn:Hlast.
    + apply last_Some in Hlast as [l' ->].
      apply Forall_app in Hids as [_ He]. apply Forall_singleton in He as [z' Hz'].
      simpl. rewrite Hz'. simpl. rewrite (doc_ids_snoc _ _ _ Hz').
      apply elem_of_app. right. apply list_elem_of_singleton. reflexivity.
    + apply last_None in Hlast. contradiction.
  - intros element e He.
    destruct (Table_insert_run _ _ _ l (last_doc_id l) element e Hat eq_refl He)
      as (w'' & Hi & _ & Hd & _).
    exists w''. split; [exact Hi|]. split.
    + rewrite Hd. rewrite list_lookup_insert_eq by (eapply lookup_lt_Some, He).
      simpl. unfold doc_id. rewrite lookup_insert_eq. reflexivity.
    + intros Hin. apply Hmax in Hin. lia.
Qed.

Example ex_docs_sorted : StronglySorted Z.lt (doc_ids ex_docs).
Proof. repeat constructor. Qed.

Lemma Table_init_seeds_counter_witness :
  let w := mkWorld [Some (Tables {["t" := ex_docs]})] [mkTinyDB 0 None] [] ∅
                   [doc [("data", VInt 7)]] in
  exists w' self t,
    Table_init "t" 0 w = (w', Return self) /\
    table_at w' self t ex_docs /\
    _last_id t = VInt 2 /\
    (forall z, z ∈ doc_ids ex_docs -> z <= 2) /\
    2 ∈ doc_ids ex_docs /\
    exists w'',
      Table_insert self 0 w' = (w'', Return tt) /\
      dicts w'' !! 0%nat ≫= doc_id = Some 3 /\
      3 ∉ doc_ids ex_docs.
Proof.
  intros w.
  destruct (Table_init_seeds_counter w "t" 0 (mkTinyDB 0 None)
              (Some (Tables {["t" := ex_docs]})) ex_docs)
    as (w' & self & t & Hinit & Hat & Hlast & _ & Hsorted);
    [reflexivity | reflexivity | reflexivity
     | repeat constructor; eexists; reflexivity |].
  destruct (Hsorted ex_docs_sorted) as (Hmax & Hin & Hnext).
  exists w', self, t. split; [exact Hinit|]. split; [exact Hat|].
  split; [exact Hlast|]. split; [exact Hmax|]. split; [apply Hin; discriminate|].
  apply (Hnext 0%nat (doc [("data", VInt 7)])).
  injection Hinit as <- _. reflexivity.
Defined.

(** ** The registry of tables *)

(** [table(name)] after a call that returned a table: the same table, and
    nothing changes; for the instance that made the call and for every
    other. *)
Lemma TinyDB_table_again w self nm w1 table :
  TinyDB_table self nm w = (w1, Return table) ->
  forall other, TinyDB_table other nm w1 = (w1, Return table).
Proof.
  unfold TinyDB_table. intros Hcall other.
  unfold bind at 1, gets at 1 in Hcall. unfold bind at 1, gets at 1.
  destruct (_table_cache w !! nm) as [t0|] eqn:Hc.
  - injection Hcall as <- <-. rewrite Hc. reflexivity.
  - apply bind_Return_inv in Hcall as (w2 & t2 & Hinit & Hrest).
    unfold bind, modify, ret in Hrest. injection Hrest as <- <-.
    simpl. rewrite lookup_insert_eq. reflexivity.
Qed.

(** C4, what the code does: two databases over two storages.  The second
    finds the name ['_default'] in the dict of the class and takes the table
    of the first for its own: a table whose [_db] is the first database.  An
    [insert] through the second database lands in the storage of the first;
    its own storage stays empty. *)
Theorem table_registry_shared_by_instances :
  let w := mkWorld [None; None] [] [] ∅ [doc [("data", VInt 5)]] in
  exists w',
    (db1 <- TinyDB_init 0 ;;
     db2 <- TinyDB_init 1 ;;
     t1 <- TinyDB_table db1 "_default" ;;
     t2 <- TinyDB_table db2 "_default" ;;
     Table_insert t2 0 ;;
     ret (db1, db2, t1, t2)) w
    = (w', Return (0, 1, 0, 0)%nat) /\
    dbs w' = [mkTinyDB 0 (Some 0%nat); mkTinyDB 1 (Some 0%nat)] /\
    _db <$> tables w' !! 0%nat = Some 0%nat /\
    backends w'
    = [Some (Tables {["_default" := [doc [("data", VInt 5); ("_id", VInt 1)]]]}); None].
Proof. intros w. eexists. repeat split. Qed.

(** * Further properties of the methods *)

(** ** The world a write leaves *)

Lemma Table_write_world w self t db b l v :
  tables w !! self = Some t ->
  dbs w !! _db t = Some db ->
  backends w !! _storage db = Some b ->
  table_docs b (name t) = Some l ->
  Table_write self (Docs v) w
  = (set_backends <[_storage db := Some (put_docs b (name t) v)]>
       (set_tables <[self := with_cache ∅ t]> w), Return tt).
Proof.
  intros Ht Hdb Hb Hl. unfold Table_write.
  run (Table_clear_query_cache_run _ _ _ Ht).
  assert (Ht1 : tables (set_tables <[self := with_cache ∅ t]> w) !! self
                = Some (with_cache ∅ t))
    by (apply list_lookup_insert_eq; eapply lookup_lt_Some, Ht).
  run (get_table_run _ _ _ Ht1). simpl.
  exact (TinyDB_write_docs (set_tables <[self := with_cache ∅ t]> w)
           _ _ _ _ _ v Hdb Hb Hl).
Qed.

Lemma Table_insert_world w self t db b l n element e :
  tables w !! self = Some t ->
  dbs w !! _db t = Some db ->
  backends w !! _storage db = Some b ->
  table_docs b (name t) = Some l ->
  _last_id t = VInt n ->
  dicts w !! element = Some e ->
  let e' := <["_id" := VInt (n + 1)]> e in
  let t' := mkTable (name t) (_db t) ∅ (VInt (n + 1)) in
  Table_insert self element w
  = (mkWorld (<[_storage db := Some (put_docs b (name t) (l ++ [e']))]> (backends w))
             (dbs w)
             (<[self := t']> (tables w))
             (_table_cache w)
             (<[element := e']> (dicts w)), Return tt).
Proof.
  intros Ht Hdb Hb Hl Hn He e' t'.
  pose proof (lookup_lt_Some _ _ _ Ht) as Hlt.
  pose proof (lookup_lt_Some _ _ _ He) as Hlte.
  set (t1 := with_last_id (VInt (n + 1)) t).
  set (w1 := set_dicts <[element := e']> (set_tables <[self := t1]> w)).
  assert (Ht1 : tables w1 !! self = Some t1)
    by (apply list_lookup_insert_eq; exact Hlt).
  assert (Hat1 : table_at w1 self t1 l).
  { constructor; [exact Ht1|]. exists db, b. auto. }
  unfold Table_insert. run (get_table_run _ _ _ Ht).
  rewrite Hn. simpl. rewrite bind_ret.
  unfold set_table at 1, bind at 1, modify at 1.
  run (get_dict_run (set_tables <[self := t1]> w) _ _ He).
  unfold set_dict at 1, bind at 1, modify at 1.
  fold e' t1 w1.
  run (Table_read_run _ _ _ _ Hat1).
  assert (He1 : dicts w1 !! element = Some e')
    by (apply list_lookup_insert_eq; exact Hlte).
  run (append_run _ l _ _ He1).
  rewrite (Table_write_world w1 self t1 db b l (l ++ [e']) Ht1 Hdb Hb Hl).
  unfold set_backends, set_tables, w1, set_dicts, set_tables. simpl.
  rewrite list_insert_insert_eq. reflexivity.
Qed.

(** ** Lists and filters *)

Lemma head_filter_split {A} (P : A -> bool) (l : list A) :
  match head (filter (fun x => P x = true) l) with
  | Some e => exists l1 l2,
      l = l1 ++ e :: l2 /\ P e = true /\ Forall (fun x => P x = false) l1
  | None => Forall (fun x => P x = false) l
  end.
Proof.
  induction l as [|x l IH]; [constructor|].
  rewrite filter_cons. destruct (P x) eqn:Hx.
  - rewrite decide_True by reflexivity. simpl.
    exists [], l. repeat split; [exact Hx | constructor].
  - rewrite decide_False by discriminate.
    destruct (head (filter (fun x => P x = true) l)) as [e|].
    + destruct IH as (l1 & l2 & -> & He & Hl1).
      exists (x :: l1), l2. repeat split; [exact He|]. constructor; assumption.
    + constructor; assumption.
Qed.

Lemma filter_not_matched (P : document -> bool) (l : list document) :
  filter (fun e => e ∉ filter (fun e => P e = true) l) l
  = filter (fun e => P e <> true) l.
Proof.
  assert (H : forall k, k ⊆ l ->
            filter (fun e => e ∉ filter (fun e => P e = true) l) k
            = filter (fun e => P e <> true) k).
  { induction k as [|x k IH]; intros Hk; [reflexivity|].
    assert (Hx : x ∈ l) by (apply Hk; left).
    assert (Hk' : k ⊆ l) by (intros y Hy; apply Hk; right; exact Hy).
    rewrite !filter_cons, (IH Hk'). destruct (P x) eqn:HP.
    - rewrite decide_False
        by (intros Hn; apply Hn; apply list_elem_of_filter; auto).
      rewrite decide_False by (intros Hn; apply Hn; reflexivity). reflexivity.
    - rewrite decide_True
        by (intros Hin; apply list_elem_of_filter in Hin as [Hin _]; congruence).
      rewrite decide_True by discriminate. reflexivity. }
  apply H. intros x Hx. exact Hx.
Qed.

Lemma filter_filter_not (P : document -> bool) (l : list document) :
  filter (fun e => P e = true) (filter (fun e => P e <> true) l) = [].
Proof.
  induction l as [|x l IH]; [reflexivity|].
  rewrite filter_cons. destruct (P x) eqn:Hx.
  - rewrite decide_False by (intros H; apply H; reflexivity). exact IH.
  - rewrite decide_True by discriminate. rewrite filter_cons.
    rewrite decide_False by (rewrite Hx; discriminate). exact IH.
Qed.

Lemma length_filter_split (P : document -> bool) (l : list document) :
  (length (filter (fun e => P e <> true) l)
   + length (filter (fun e => P e = true) l) = length l)%nat.
Proof.
  induction l as [|x l IH]; [reflexivity|].
  rewrite !filter_cons. destruct (P x) eqn:Hx.
  - rewrite decide_False by (intros H; apply H; reflexivity).
    rewrite decide_True by reflexivity. simpl. lia.
  - rewrite decide_True by discriminate.
    rewrite decide_False by discriminate. simpl. lia.
Qed.

(** ** [purge], [get], [in] and [len] *)

(** X1: [purge] empties the table and leaves its counter where it was: the
    [insert] that follows does not start again at 1, it assigns the counter
    plus one, and its document is then the only one stored. *)
Theorem Table_purge_keeps_counter w self t l n element e :
  table_at w self t l ->
  _last_id t = VInt n ->
  dicts w !! element = Some e ->
  exists w1 w2,
    Table_purge self w = (w1, Return tt) /\
    Table_all self w1 = (w1, Return (Docs [])) /\
    Table_insert self element w1 = (w2, Return tt) /\
    Table_all self w2 = (w2, Return (Docs [<["_id" := VInt (n + 1)]> e])).
Proof.
  intros Hat Hn He.
  destruct (Table_purge_run w self t l Hat) as (w1 & Hp & Hat1 & Hd & _).
  rewrite <- Hd in He.
  destruct (Table_insert_run w1 self _ [] n element e Hat1 Hn He)
    as (w2 & Hi & Hat2 & _).
  exists w1, w2. split; [exact Hp|]. split; [apply (Table_read_run _ _ _ _ Hat1)|].
  split; [exact Hi|]. apply (Table_read_run _ _ _ _ Hat2).
Qed.

Lemma Table_purge_keeps_counter_witness :
  exists w1 w2,
    Table_purge 0 ex_world = (w1, Return tt) /\
    Table_all 0 w1 = (w1, Return (Docs [])) /\
    Table_insert 0 0 w1 = (w2, Return tt) /\
    Table_all 0 w2 = (w2, Return (Docs [doc [("data", VInt 7); ("_id", VInt 3)]])).
Proof.
  apply (Table_purge_keeps_counter ex_world 0 ex_table ex_docs 2 0
           (doc [("data", VInt 7)]) ex_table_at); reflexivity.
Defined.

(** X2: [get] reads and changes nothing, the cache neither.  It returns the
    first document of the stored list, in its order, that the condition
    holds of, and [None] exactly when it holds of none. *)
Theorem Table_get_first_match w self t l cond :
  table_at w self t l ->
  exists o,
    Table_get self cond w = (w, Return o) /\
    match o with
    | Some e => exists l1 l2,
        l = l1 ++ e :: l2 /\ eval cond e = true /\
        Forall (fun x => eval cond x = false) l1
    | None => Forall (fun x => eval cond x = false) l
    end.
Proof.
  intros Hat. exists (head (filter (fun e => eval cond e = true) l)). split.
  - unfold Table_get, Table_all. run (Table_read_run _ _ _ _ Hat). reflexivity.
  - apply (head_filter_split (eval cond)).
Qed.

Lemma Table_get_first_match_witness :
  exists o,
    Table_get 0 (QGt "data" 7) ex_world = (ex_world, Return o) /\
    match o with
    | Some e => exists l1 l2,
        ex_docs = l1 ++ e :: l2 /\ eval (QGt "data" 7) e = true /\
        Forall (fun x => eval (QGt "data" 7) x = false) l1
    | None => Forall (fun x => eval (QGt "data" 7) x = false) ex_docs
    end.
Proof.
  exact (Table_get_first_match ex_world 0 ex_table ex_docs (QGt "data" 7)
           ex_table_at).
Defined.

(** X3: [cond in table] is [True] exactly when the condition holds of some
    stored document.  The test goes through [search]: it leaves the stored
    documents, the counter and the dicts of the callers as they are, and
    writes the cache alone. *)
Theorem Table_contains_some_match w self t l cond :
  table_at w self t l ->
  no_cond_key t ->
  exists w' t' b,
    Table_contains self cond w = (w', Return b) /\
    (b = true <-> exists e, e ∈ l /\ eval cond e = true) /\
    table_at w' self t' l /\
    _last_id t' = _last_id t /\
    backends w' = backends w /\
    dicts w' = dicts w.
Proof.
  intros Hat Hc.
  destruct (Table_search_run w self t l cond Hat (Hc cond)) as [Hs Hat'].
  eexists _, _, _. split.
  - unfold Table_contains. run Hs. reflexivity.
  - split; [|split; [exact Hat'|repeat split]].
    destruct (filter (fun e => eval cond e = true) l) as [|x k] eqn:Hf; simpl.
    + split; [discriminate|]. intros (e & He & Hev). exfalso.
      apply (filter_nil_not_elem_of _ _ e Hf Hev He).
    + split; [|reflexivity]. intros _. exists x.
      assert (Hx : x ∈ filter (fun e => eval cond e = true) l)
        by (rewrite Hf; left).
      apply list_elem_of_filter in Hx as [Hev Hx]. auto.
Qed.

Lemma Table_contains_some_match_witness :
  exists w' t' b,
    Table_contains 0 (QGt "data" 3) ex_world = (w', Return b) /\
    (b = true <-> exists e, e ∈ ex_docs /\ eval (QGt "data" 3) e = true) /\
    table_at w' 0 t' ex_docs /\
    _last_id t' = VInt 2 /\
    backends w' = backends ex_world /\
    dicts w' = dicts ex_world.
Proof.
  exact (Table_contains_some_match ex_world 0 ex_table ex_docs (QGt "data" 3)
           ex_table_at ex_no_cond_key).
Defined.

(** X4: [len(table)] is the number of stored documents and changes
    nothing; an [insert] makes it one more, and [remove(cond)] makes it less
    by the number of stored documents that [cond] holds of. *)
Theorem Table_len_counts w self t l :
  table_at w self t l ->
  no_cond_key t ->
  Table_len self w = (w, Return (length l)) /\
  (forall n element e, _last_id t = VInt n -> dicts w !! element = Some e ->
     exists w',
       Table_insert self element w = (w', Return tt) /\
       Table_len self w' = (w', Return (S (length l)))) /\
  (forall cond, exists w' k,
       Table_remove self cond w = (w', Return tt) /\
       Table_len self w' = (w', Return k) /\
       (k + length (filter (fun e => eval cond e = true) l) = length l)%nat).
Proof.
  intros Hat Hc.
  assert (Hlen : forall w' t' l', table_at w' self t' l' ->
            Table_len self w' = (w', Return (length l'))).
  { intros w' t' l' Hat'. unfold Table_len, Table_all.
    run (Table_read_run _ _ _ _ Hat'). reflexivity. }
  split; [exact (Hlen _ _ _ Hat)|]. split.
  - intros n element e Hn He.
    destruct (Table_insert_run w self t l n element e Hat Hn He)
      as (w' & Hi & Hat' & _).
    exists w'. split; [exact Hi|]. rewrite (Hlen _ _ _ Hat').
    rewrite length_app. simpl. do 2 f_equal. lia.
  - intros cond.
    destruct (Table_remove_run w self t l cond Hat (Hc cond)) as (w' & Hr & Hat' & _).
    eexists w', _. split; [exact Hr|]. split; [exact (Hlen _ _ _ Hat')|].
    rewrite (filter_not_matched (eval cond)). apply length_filter_split.
Qed.

Lemma Table_len_counts_witness :
  Table_len 0 ex_world = (ex_world, Return 2%nat) /\
  (exists w',
     Table_insert 0 0 ex_world = (w', Return tt) /\
     Table_len 0 w' = (w', Return 3%nat)) /\
  (exists w' k,
     Table_remove 0 (QEq "data" (VInt 5)) ex_world = (w', Return tt) /\
     Table_len 0 w' = (w', Return k) /\
     (k + 1 = 2)%nat).
Proof.
  destruct (Table_len_counts ex_world 0 ex_table ex_docs ex_table_at ex_no_cond_key)
    as (Hlen & Hins & Hrem).
  split; [exact Hlen|]. split.
  - apply (Hins 2 0%nat (doc [("data", VInt 7)])); reflexivity.
  - exact (Hrem (QEq "data" (VInt 5))).
Defined.

(** ** How [search] follows [insert] and [remove] *)

(** X5: a [search] after an [insert] returns what it would have returned
    before, followed by the inserted document, stamped with its identifier,
    when the condition holds of it so stamped. *)
Theorem Table_search_after_insert w self t l n element e cond :
  table_at w self t l ->
  _last_id t = VInt n ->
  dicts w !! element = Some e ->
  let e' := <["_id" := VInt (n + 1)]> e in
  exists w1 w2,
    Table_insert self element w = (w1, Return tt) /\
    Table_search self cond w1
    = (w2, Return (filter (fun x => eval cond x = true) l
                   ++ (if eval cond e' then [e'] else []))).
Proof.
  intros Hat Hn He e'.
  destruct (Table_insert_run w self t l n element e Hat Hn He)
    as (w1 & Hi & Hat1 & _).
  destruct (Table_search_run w1 self _ _ cond Hat1 (lookup_empty _)) as [Hs _].
  eexists w1, _. split; [exact Hi|]. rewrite Hs. do 2 f_equal.
  fold e'. rewrite filter_app, filter_cons, filter_nil.
  destruct (eval cond e'); [rewrite decide_True by reflexivity
                           |rewrite decide_False by discriminate]; reflexivity.
Qed.

Lemma Table_search_after_insert_witness :
  exists w1 w2,
    Table_insert 0 0 ex_world = (w1, Return tt) /\
    Table_search 0 (QGt "data" 4) w1
    = (w2, Return [doc [("data", VInt 5); ("_id", VInt 1)];
                   doc [("data", VInt 7); ("_id", VInt 3)]]).
Proof.
  apply (Table_search_after_insert ex_world 0 ex_table ex_docs 2 0
           (doc [("data", VInt 7)]) (QGt "data" 4) ex_table_at); reflexivity.
Defined.

(** X6: after [remove(cond)] the condition holds of no stored document:
    [search(cond)] returns the empty list, [get(cond)] returns [None], and a
    second [remove(cond)] leaves the stored list as the first left it. *)
Theorem Table_remove_then_search w self t l cond :
  table_at w self t l ->
  no_cond_key t ->
  exists w1 l1,
    Table_remove self cond w = (w1, Return tt) /\
    Table_all self w1 = (w1, Return (Docs l1)) /\
    (exists w2, Table_search self cond w1 = (w2, Return [])) /\
    Table_get self cond w1 = (w1, Return None) /\
    (exists w3, Table_remove self cond w1 = (w3, Return tt) /\
                Table_all self w3 = (w3, Return (Docs l1))).
Proof.
  intros Hat Hc.
  destruct (Table_remove_run w self t l cond Hat (Hc cond)) as (w1 & Hr & Hat1 & _).
  rewrite (filter_not_matched (eval cond)) in Hat1.
  set (l1 := filter (fun e => eval cond e <> true) l) in *.
  assert (Hnone : filter (fun e => eval cond e = true) l1 = [])
    by apply (filter_filter_not (eval cond)).
  exists w1, l1. split; [exact Hr|]. split; [apply (Table_read_run _ _ _ _ Hat1)|].
  split; [|split].
  - destruct (Table_search_run w1 self _ _ cond Hat1 (lookup_empty _)) as [Hs _].
    rewrite Hnone in Hs. eexists. exact Hs.
  - unfold Table_get, Table_all. run (Table_read_run _ _ _ _ Hat1).
    simpl. rewrite bind_ret. rewrite Hnone. reflexivity.
  - destruct (Table_remove_run w1 self _ l1 cond Hat1 (lookup_empty _))
      as (w3 & Hr3 & Hat3 & _).
    exists w3. split; [exact Hr3|].
    unfold Table_all. rewrite (Table_read_run _ _ _ _ Hat3). do 3 f_equal.
    rewrite Hnone. clear. induction l1 as [|x k IH]; [reflexivity|].
    rewrite filter_cons, decide_True by (intros H; inversion H). f_equal. exact IH.
Qed.

Lemma Table_remove_then_search_witness :
  exists w1 l1,
    Table_remove 0 (QEq "data" (VInt 5)) ex_world = (w1, Return tt) /\
    Table_all 0 w1 = (w1, Return (Docs l1)) /\
    (exists w2, Table_search 0 (QEq "data" (VInt 5)) w1 = (w2, Return [])) /\
    Table_get 0 (QEq "data" (VInt 5)) w1 = (w1, Return None) /\
    (exists w3, Table_remove 0 (QEq "data" (VInt 5)) w1 = (w3, Return tt) /\
                Table_all 0 w3 = (w3, Return (Docs l1))).
Proof.
  exact (Table_remove_then_search ex_world 0 ex_table ex_docs
           (QEq "data" (VInt 5)) ex_table_at ex_no_cond_key).
Defined.

(** ** The order of the stored identifiers *)

Lemma ordered_below_nil n : ordered_below n [].
Proof.
  split; [constructor|]. split; [constructor|]. intros z Hz. inversion Hz.
Qed.

Lemma ordered_below_snoc n l e :
  ordered_below n l ->
  doc_id e = Some (n + 1) ->
  ordered_below (n + 1) (l ++ [e]).
Proof.
  intros (Hid & Hsorted & Hmax) He. split; [|split].
  - apply Forall_app. split; [exact Hid|]. constructor; [|constructor].
    rewrite He. eauto.
  - rewrite (doc_ids_snoc _ _ _ He).
    apply StronglySorted_app_2; [|exact Hsorted|repeat constructor].
    intros x1 x2 Hx1 Hx2. apply Hmax in Hx1.
    apply list_elem_of_singleton in Hx2. lia.
  - intros z Hz. rewrite (doc_ids_snoc _ _ _ He) in Hz.
    apply elem_of_app in Hz as [Hz|Hz].
    + apply Hmax in Hz. lia.
    + apply list_elem_of_singleton in Hz. lia.
Qed.

Lemma doc_ids_filter (P : document -> Prop) `{!forall e, Decision (P e)} l z :
  z ∈ doc_ids (filter P l) -> z ∈ doc_ids l.
Proof.
  unfold doc_ids. rewrite !list_elem_of_omap. intros (e & He & Hz).
  apply list_elem_of_filter in He as [_ He]. eauto.
Qed.

Lemma ordered_below_filter (P : document -> Prop) `{!forall e, Decision (P e)} n l :
  ordered_below n l -> ordered_below n (filter P l).
Proof.
  intros (Hid & Hsorted & Hmax). split; [|split].
  - apply Forall_forall. intros e He. apply list_elem_of_filter in He as [_ He].
    rewrite Forall_forall in Hid. auto.
  - clear Hmax. induction l as [|e l IH]; [constructor|].
    apply Forall_cons in Hid as [[z Hz] Hid].
    unfold doc_ids in Hsorted. simpl in Hsorted. rewrite Hz in Hsorted.
    apply StronglySorted_inv in Hsorted as [Hsorted Hlt].
    rewrite filter_cons. destruct (decide (P e)); [|exact (IH Hid Hsorted)].
    unfold doc_ids. simpl. rewrite Hz. constructor; [exact (IH Hid Hsorted)|].
    apply Forall_forall. intros y Hy. rewrite Forall_forall in Hlt.
    apply Hlt. exact (doc_ids_filter P l y Hy).
  - intros z Hz. apply Hmax. exact (doc_ids_filter P l z Hz).
Qed.

(** X7: the methods keep the stored list in the increasing order of its
    identifiers, with no identifier above the counter.  From a table in that
    state, whatever the sequence of [insert]s, [remove]s and [purge]s, every
    call returns and the table is in that state again, its counter advanced
    by the number of [insert]s: the last stored document has the greatest
    identifier. *)
Theorem mutations_keep_ids_ordered ms : forall w self t l n,
  table_at w self t l ->
  no_cond_key t ->
  _last_id t = VInt n ->
  ordered_below n l ->
  Forall (allocated w) ms ->
  exists w' ids t' l',
    assigned self ms w = (w', Return ids) /\
    table_at w' self t' l' /\
    no_cond_key t' /\
    _last_id t' = VInt (n + Z.of_nat (length (filter is_insert ms))) /\
    ordered_below (n + Z.of_nat (length (filter is_insert ms))) l'.
Proof.
  induction ms as [|m ms IH]; intros w self t l n Hat Hc Hn Hord Hall.
  - exists w, [], t, l. simpl. rewrite Z.add_0_r. auto.
  - apply Forall_cons in Hall as [Hm Hall].
    assert (Hmono : forall w', length (dicts w') = length (dicts w) ->
              Forall (allocated w') ms).
    { intros w' Hlen. eapply Forall_impl; [exact Hall|].
      intros [element| |]; simpl; rewrite ?Hlen; auto. }
    destruct m as [element|cond|]; simpl in Hm |- *.
    + destruct (lookup_lt_is_Some_2 _ _ Hm) as [e He].
      destruct (Table_insert_run w self t l n element e Hat Hn He)
        as (w1 & Hi & Hat1 & Hd & _).
      assert (Hord1 : ordered_below (n + 1) (l ++ [<["_id" := VInt (n + 1)]> e])).
      { apply ordered_below_snoc; [exact Hord|].
        unfold doc_id. rewrite lookup_insert_eq. reflexivity. }
      destruct (IH w1 self _ _ (n + 1) Hat1 (no_cond_key_empty t) eq_refl Hord1)
        as (w' & ids & t' & l' & Hrun & Hat' & Hc' & Hn' & Hord').
      { apply Hmono. rewrite Hd. apply length_insert. }
      exists w', (VInt (n + 1) :: ids), t', l'. split.
      * run Hi.
        assert (He1 : dicts w1 !! element = Some (<["_id" := VInt (n + 1)]> e))
          by (rewrite Hd; apply list_lookup_insert_eq; exact Hm).
        run (get_dict_run _ _ _ He1). rewrite lookup_insert_eq. simpl.
        rewrite bind_ret. run Hrun. reflexivity.
      * replace (n + Z.of_nat (S (length (filter is_insert ms))))
          with (n + 1 + Z.of_nat (length (filter is_insert ms))) by lia.
        auto.
    + destruct (Table_remove_run w self t l cond Hat (Hc cond))
        as (w1 & Hr & Hat1 & Hd & _).
      destruct (IH w1 self _ _ n Hat1 (no_cond_key_empty t) Hn
                  (ordered_below_filter _ n l Hord) (Hmono _ (f_equal length Hd)))
        as (w' & ids & t' & l' & Hrun & Hrest).
      exists w', ids, t', l'. split; [|exact Hrest]. run Hr. exact Hrun.
    + destruct (Table_purge_run w self t l Hat) as (w1 & Hp & Hat1 & Hd & _).
      destruct (IH w1 self _ _ n Hat1 (no_cond_key_empty t) Hn
                  (ordered_below_nil n) (Hmono _ (f_equal length Hd)))
        as (w' & ids & t' & l' & Hrun & Hrest).
      exists w', ids, t', l'. split; [|exact Hrest]. run Hp. exact Hrun.
Qed.

Lemma ex_ordered_below : ordered_below 2 ex_docs.
Proof.
  split; [|split].
  - repeat constructor; eexists; reflexivity.
  - exact ex_docs_sorted.
  - intros z Hz. vm_compute in Hz.
    repeat (apply elem_of_cons in Hz as [->|Hz]; [lia|]). inversion Hz.
Qed.

Lemma mutations_keep_ids_ordered_witness :
  let ms := [Insert 0; Remove (QEq "data" (VInt 0)); Insert 0] in
  exists w' ids t' l',
    assigned 0 ms ex_world = (w', Return ids) /\
    table_at w' 0 t' l' /\
    no_cond_key t' /\
    _last_id t' = VInt 4 /\
    ordered_below 4 l'.
Proof.
  intros ms.
  apply (mutations_keep_ids_ordered ms ex_world 0 ex_table ex_docs 2
           ex_table_at ex_no_cond_key eq_refl ex_ordered_below).
  repeat constructor.
Defined.

(** ** The order of the stored documents *)

Lemma stamp_same_fields e e' v :
  same_fields e e' -> <["_id" := v]> e' = <["_id" := v]> e.
Proof.
  unfold same_fields. intros H.
  rewrite <- (insert_delete_eq e'), <- (insert_delete_eq e), H. reflexivity.
Qed.

Lemma inserts_in_order elements : forall w self t l n es,
  table_at w self t l ->
  _last_id t = VInt n ->
  Forall2 (fun element e => exists e', dicts w !! element = Some e' /\ same_fields e e')
          elements es ->
  exists w' ids,
    assigned self (Insert <$> elements) w = (w', Return ids) /\
    Table_all self w'
    = (w', Return (Docs (l ++ imap (fun i e => <["_id" := VInt (n + 1 + Z.of_nat i)]> e) es))).
Proof.
  induction elements as [|element elements IH]; intros w self t l n es Hat Hn Hall.
  - apply Forall2_nil_inv_l in Hall as ->. exists w, []. split; [reflexivity|].
    simpl. rewrite app_nil_r. apply (Table_read_run _ _ _ _ Hat).
  - apply Forall2_cons_inv_l in Hall as (e & es' & (e' & He' & Hsame) & Hall & ->).
    destruct (Table_insert_run w self t l n element e' Hat Hn He')
      as (w1 & Hi & Hat1 & Hd & _).
    rewrite (stamp_same_fields _ _ _ Hsame) in Hat1, Hd.
    assert (Hall1 : Forall2
              (fun element e => exists e', dicts w1 !! element = Some e' /\ same_fields e e')
              elements es').
    { eapply Forall2_impl; [exact Hall|]. intros el2 e2 (e2' & He2 & Hs2).
      rewrite Hd. destruct (decide (element = el2)) as [<-|Hne].
      - eexists. split.
        + apply list_lookup_insert_eq. eapply lookup_lt_Some, He'.
        + unfold same_fields in *. rewrite delete_insert_eq.
          rewrite He' in He2. injection He2 as <-. congruence.
      - exists e2'. split; [|exact Hs2].
        rewrite list_lookup_insert_ne by exact Hne. exact He2. }
    destruct (IH w1 self _ _ (n + 1) es' Hat1 eq_refl Hall1)
      as (w' & ids & Hrun & Hread).
    exists w', (VInt (n + 1) :: ids). split.
    + simpl. run Hi.
      assert (He1 : dicts w1 !! element = Some (<["_id" := VInt (n + 1)]> e))
        by (rewrite Hd; apply list_lookup_insert_eq; eapply lookup_lt_Some, He').
      run (get_dict_run _ _ _ He1). rewrite lookup_insert_eq. simpl.
      rewrite bind_ret. run Hrun. reflexivity.
    + rewrite Hread. do 3 f_equal. rewrite <- app_assoc. f_equal.
      rewrite imap_cons. simpl. rewrite Z.add_0_r. f_equal.
      apply imap_ext. intros i x _. simpl. do 2 f_equal. lia.
Qed.

(** X8: [insert] appends.  After the [insert]s of a sequence of dicts, one
    dict perhaps more than once, [all()] returns the documents stored before,
    then the inserted ones in the order of the calls, the k-th stamped with
    the counter plus k. *)
Theorem Table_all_in_insertion_order w self t l n elements es :
  table_at w self t l ->
  _last_id t = VInt n ->
  Forall2 (fun element e => dicts w !! element = Some e) elements es ->
  exists w' ids,
    assigned self (Insert <$> elements) w = (w', Return ids) /\
    Table_all self w'
    = (w', Return (Docs (l ++ imap (fun i e => <["_id" := VInt (n + 1 + Z.of_nat i)]> e) es))).
Proof.
  intros Hat Hn Hall. apply (inserts_in_order elements w self t l n es Hat Hn).
  eapply Forall2_impl; [exact Hall|]. intros element e He.
  exists e. split; [exact He | reflexivity].
Qed.

Lemma Table_all_in_insertion_order_witness :
  exists w' ids,
    assigned 0 (Insert <$> [0%nat; 0%nat]) ex_world = (w', Return ids) /\
    Table_all 0 w'
    = (w', Return (Docs (ex_docs ++ [doc [("data", VInt 7); ("_id", VInt 3)];
                                     doc [("data", VInt 7); ("_id", VInt 4)]]))).
Proof.
  apply (Table_all_in_insertion_order ex_world 0 ex_table ex_docs 2 [0%nat; 0%nat]
           [doc [("data", VInt 7)]; doc [("data", VInt 7)]] ex_table_at eq_refl).
  repeat constructor.
Defined.

(** ** The whole snapshot: [purge_all], and a write read back *)

(** X9: [purge_all] writes the empty dict and touches no table object.
    Every table then reads as the empty list, while the counters stay: the
    next [insert] into a table assigns its counter plus one, not 1. *)
Theorem TinyDB_purge_all_keeps_counters w self db b tbl t l n element e :
  dbs w !! self = Some db ->
  backends w !! _storage db = Some b ->
  table_at w tbl t l ->
  _db t = self ->
  name t <> "" ->
  _last_id t = VInt n ->
  dicts w !! element = Some e ->
  exists w1 w2,
    TinyDB_purge_all self w = (w1, Return tt) /\
    tables w1 = tables w /\
    (forall nm, nm <> "" -> TinyDB_read self (Some nm) w1 = (w1, Return (Docs []))) /\
    Table_insert tbl element w1 = (w2, Return tt) /\
    Table_all tbl w2 = (w2, Return (Docs [<["_id" := VInt (n + 1)]> e])).
Proof.
  intros Hdb Hb Hat Hself Hnm Hn He.
  set (w1 := set_backends <[_storage db := Some (Tables ∅)]> w).
  assert (Hb1 : backends w1 !! _storage db = Some (Some (Tables ∅)))
    by (apply list_lookup_insert_eq; eapply lookup_lt_Some, Hb).
  assert (Hat1 : table_at w1 tbl t []).
  { constructor; [apply Hat|]. exists db, (Some (Tables ∅)).
    split; [rewrite Hself; exact Hdb|]. split; [exact Hb1|].
    unfold table_docs. rewrite bool_decide_eq_false_2 by exact Hnm. reflexivity. }
  destruct (Table_insert_run w1 tbl t [] n element e Hat1 Hn He)
    as (w2 & Hi & Hat2 & _).
  exists w1, w2. split; [|split; [reflexivity|split; [|split]]].
  - apply (TinyDB_write_unnamed w self db b Hdb Hb). reflexivity.
  - intros nm Hne. rewrite (TinyDB_read_named w1 self db _ Hdb Hb1 nm Hne).
    reflexivity.
  - exact Hi.
  - apply (Table_read_run _ _ _ _ Hat2).
Qed.

Lemma TinyDB_purge_all_keeps_counters_witness :
  exists w1 w2,
    TinyDB_purge_all 0 ex_world = (w1, Return tt) /\
    tables w1 = tables ex_world /\
    (forall nm, nm <> "" -> TinyDB_read 0 (Some nm) w1 = (w1, Return (Docs []))) /\
    Table_insert 0 0 w1 = (w2, Return tt) /\
    Table_all 0 w2 = (w2, Return (Docs [doc [("data", VInt 7); ("_id", VInt 3)]])).
Proof.
  apply (TinyDB_purge_all_keeps_counters ex_world 0 (mkTinyDB 0 None)
           (Some (Tables {["t" := ex_docs]})) 0 ex_table ex_docs 2 0
           (doc [("data", VInt 7)]));
    [reflexivity | reflexivity | exact ex_table_at | reflexivity
     | discriminate | reflexivity | reflexivity].
Defined.

(** X10: a dict of tables written as the whole snapshot is what
    [TinyDB._read()] returns next, and [TinyDB._read(t)] returns the list it
    holds under [t], the empty list for a name it does not hold. *)
Theorem TinyDB_write_read_round_trip w self db b m :
  dbs w !! self = Some db ->
  backends w !! _storage db = Some b ->
  exists w',
    TinyDB_write self (Tables m) None w = (w', Return tt) /\
    TinyDB_read self None w' = (w', Return (Tables m)) /\
    forall t, t <> "" ->
      TinyDB_read self (Some t) w' = (w', Return (Docs (default [] (m !! t)))).
Proof.
  intros Hdb Hb.
  set (w' := set_backends <[_storage db := Some (Tables m)]> w).
  assert (Hb' : backends w' !! _storage db = Some (Some (Tables m)))
    by (apply list_lookup_insert_eq; eapply lookup_lt_Some, Hb).
  exists w'. split; [|split].
  - apply (TinyDB_write_unnamed w self db b Hdb Hb). reflexivity.
  - apply (TinyDB_read_unnamed w' self db _ Hdb Hb'). reflexivity.
  - intros t Ht. apply (TinyDB_read_named w' self db _ Hdb Hb' t Ht).
Qed.

Lemma TinyDB_write_read_round_trip_witness :
  exists w',
    TinyDB_write 0 (Tables {["u" := ex_docs]}) None ex_world = (w', Return tt) /\
    TinyDB_read 0 None w' = (w', Return (Tables {["u" := ex_docs]})) /\
    forall t, t <> "" ->
      TinyDB_read 0 (Some t) w'
      = (w', Return (Docs (default [] (({["u" := ex_docs]} : gmap string (list document)) !! t)))).
Proof.
  apply (TinyDB_write_read_round_trip ex_world 0 (mkTinyDB 0 None)
           (Some (Tables {["t" := ex_docs]}))); reflexivity.
Defined.

(** ** Two tables *)

Lemma table_docs_put_other b nma nmb la lb v :
  table_docs b nma = Some la ->
  table_docs b nmb = Some lb ->
  nma <> nmb ->
  table_docs (Some (put_docs b nma v)) nmb = Some lb.
Proof.
  unfold table_docs, put_docs. intros Ha Hb Hne.
  destruct (bool_decide (nma = "")) eqn:Hea; destruct (bool_decide (nmb = "")) eqn:Heb.
  - apply bool_decide_eq_true in Hea, Heb. congruence.
  - destruct b as [[m|k]|]; simplify_eq.
  - destruct b as [[m|k]|]; simplify_eq.
  - destruct (snapshot b) as [m|k]; [|discriminate].
    simpl in *. rewrite lookup_insert_ne by exact Hne. exact Hb.
Qed.

(** X11: an [insert] into one table leaves every table of another name
    alone: its stored documents, its counter and its cache. *)
Theorem Table_insert_leaves_other_tables w a ta la b tb lb n element e :
  table_at w a ta la ->
  table_at w b tb lb ->
  name ta <> name tb ->
  _last_id ta = VInt n ->
  dicts w !! element = Some e ->
  exists w',
    Table_insert a element w = (w', Return tt) /\
    table_at w' b tb lb.
Proof.
  intros [Hta (dba & ba & Hdba & Hba & Hla)] [Htb (dbb & bb & Hdbb & Hbb & Hlb)]
         Hne Hn He.
  eexists. split.
  - exact (Table_insert_world w a ta dba ba la n element e Hta Hdba Hba Hla Hn He).
  - constructor; simpl.
    + rewrite list_lookup_insert_ne; [exact Htb|]. intros ->. congruence.
    + destruct (decide (_storage dba = _storage dbb)) as [Heq|Hneq].
      * exists dbb, (Some (put_docs ba (name ta) (la ++ [<["_id" := VInt (n + 1)]> e]))).
        split; [exact Hdbb|]. split.
        -- rewrite Heq. apply list_lookup_insert_eq. eapply lookup_lt_Some, Hbb.
        -- rewrite Heq, Hbb in Hba. injection Hba as <-.
           exact (table_docs_put_other _ _ _ _ _ _ Hla Hlb Hne).
      * exists dbb, bb. split; [exact Hdbb|]. split; [|exact Hlb].
        rewrite list_lookup_insert_ne by exact Hneq. exact Hbb.
Qed.

Lemma Table_insert_leaves_other_tables_witness :
  exists w',
    Table_insert 0 0 ex_two_tables = (w', Return tt) /\
    table_at w' 1 (mkTable "u" 0 ∅ (VInt 1)) [doc [("_id", VInt 1)]].
Proof.
  apply (Table_insert_leaves_other_tables ex_two_tables 0 ex_table ex_docs
           1 (mkTable "u" 0 ∅ (VInt 1)) [doc [("_id", VInt 1)]] 2 0
           (doc [("data", VInt 7)])).
  - constructor; [reflexivity|]. eexists _, _. repeat split.
  - constructor; [reflexivity|]. eexists _, _. repeat split.
  - discriminate.
  - reflexivity.
  - reflexivity.
Defined.

(** ** Construction and [insert] where they fail *)

Lemma Table_init_seed w nm db l :
  TinyDB_read db (Some nm) w = (w, Return (Docs l)) ->
  Table_init nm db w =
  match seed l with
  | Some v => (set_tables (fun ts => ts ++ [mkTable nm db ∅ v]) w,
               Return (length (tables w)))
  | None => (w, Raise KeyError)
  end.
Proof.
  intros Hr. rewrite (Table_init_run w nm db l Hr). unfold seed.
  destruct (list.last l) as [e|]; [|reflexivity].
  destruct (e !! "_id"); reflexivity.
Qed.

(** X12: over a snapshot that is a list and no dict, a table of a name
    that is not empty is constructed, with the counter 0, and reads as empty;
    its [insert] raises [TypeError] at the write, when the counter has moved
    on and the dict of the caller has its ['_id']: the backend alone is as
    before. *)
Theorem Table_insert_fails_after_stamping w nm db d k element e :
  dbs w !! db = Some d ->
  backends w !! _storage d = Some (Some (Docs k)) ->
  nm <> "" ->
  dicts w !! element = Some e ->
  exists w1 self w2,
    Table_init nm db w = (w1, Return self) /\
    tables w1 !! self = Some (mkTable nm db ∅ (VInt 0)) /\
    Table_all self w1 = (w1, Return (Docs [])) /\
    Table_insert self element w1 = (w2, Raise TypeError) /\
    backends w2 = backends w /\
    tables w2 !! self = Some (mkTable nm db ∅ (VInt 1)) /\
    dicts w2 !! element = Some (<["_id" := VInt 1]> e).
Proof.
  intros Hdb Hb Hnm He.
  pose proof (TinyDB_read_named w db d _ Hdb Hb nm Hnm) as Hr. simpl in Hr.
  pose proof (Table_init_seed w nm db [] Hr) as Hinit. simpl in Hinit.
  set (t0 := mkTable nm db ∅ (VInt 0)) in *.
  set (w1 := set_tables (fun ts => ts ++ [t0]) w) in *.
  set (self := length (tables w)) in *.
  assert (Ht0 : tables w1 !! self = Some t0).
  { simpl. rewrite lookup_app_r by (unfold self; lia).
    unfold self. rewrite Nat.sub_diag. reflexivity. }
  assert (Hread : forall w', dbs w' = dbs w -> backends w' = backends w ->
            TinyDB_read db (Some nm) w' = (w', Return (Docs []))).
  { intros w' Hd' Hb'. rewrite <- Hd' in Hdb. rewrite <- Hb' in Hb.
    rewrite (TinyDB_read_named w' db d _ Hdb Hb nm Hnm). reflexivity. }
  set (t1 := mkTable nm db ∅ (VInt 1)).
  set (e' := <["_id" := VInt 1]> e).
  set (w2 := set_tables <[self := t1]> (set_dicts <[element := e']>
               (set_tables <[self := t1]> w1))).
  exists w1, self, w2. split; [exact Hinit|]. split; [exact Ht0|]. split.
  { unfold Table_all, Table_read. run (get_table_run _ _ _ Ht0).
    apply Hread; reflexivity. }
  assert (Hlt : (self < length (tables w1))%nat) by (eapply lookup_lt_Some, Ht0).
  assert (Hlte : (element < length (dicts w))%nat) by (eapply lookup_lt_Some, He).
  split; [|split; [reflexivity|split]].
  - unfold Table_insert. run (get_table_run _ _ _ Ht0). simpl. rewrite bind_ret.
    unfold set_table at 1, bind at 1, modify at 1.
    run (get_dict_run (set_tables <[self := t1]> w1) _ _ He).
    unfold set_dict at 1, bind at 1, modify at 1. fold e'.
    set (wa := set_dicts <[element := e']> (set_tables <[self := t1]> w1)).
    assert (Hta : tables wa !! self = Some t1)
      by (apply list_lookup_insert_eq; exact Hlt).
    assert (Hra : Table_read self wa = (wa, Return (Docs []))).
    { unfold Table_read. run (get_table_run _ _ _ Hta). apply Hread; reflexivity. }
    run Hra.
    assert (Hea : dicts wa !! element = Some e')
      by (apply list_lookup_insert_eq; exact Hlte).
    run (append_run _ [] _ _ Hea).
    unfold Table_write. run (Table_clear_query_cache_run _ _ _ Hta).
    assert (Ht2 : tables w2 !! self = Some t1).
    { apply list_lookup_insert_eq. unfold wa. simpl.
      rewrite length_insert. exact Hlt. }
    change (set_tables <[self := with_cache ∅ t1]> wa) with w2.
    run (get_table_run _ _ _ Ht2). simpl.
    apply (TinyDB_write_named_list w2 db d (Some (Docs k)) Hdb Hb nm k _ Hnm eq_refl).
  - apply list_lookup_insert_eq. simpl. rewrite length_insert. exact Hlt.
  - apply list_lookup_insert_eq. exact Hlte.
Qed.

Lemma Table_insert_fails_after_stamping_witness :
  let w := mkWorld [Some (Docs ex_docs)] [mkTinyDB 0 None] [] ∅
                   [doc [("data", VInt 7)]] in
  exists w1 self w2,
    Table_init "t" 0 w = (w1, Return self) /\
    tables w1 !! self = Some (mkTable "t" 0 ∅ (VInt 0)) /\
    Table_all self w1 = (w1, Return (Docs [])) /\
    Table_insert self 0 w1 = (w2, Raise TypeError) /\
    backends w2 = backends w /\
    tables w2 !! self = Some (mkTable "t" 0 ∅ (VInt 1)) /\
    dicts w2 !! 0%nat = Some (<["_id" := VInt 1]> (doc [("data", VInt 7)])).
Proof.
  intros w.
  apply (Table_insert_fails_after_stamping w "t" 0 (mkTinyDB 0 None) ex_docs 0
           (doc [("data", VInt 7)])); [reflexivity | reflexivity | discriminate | reflexivity].
Defined.



(** X14: when the last stored document has no ['_id'], [Table.__init__]
    raises [KeyError]: [IndexError], of the empty list, is all it catches.
    [TinyDB.table] then raises as well and registers nothing, and the world
    is as it was. *)
Theorem Table_init_last_without_id w nm db d b l :
  dbs w !! db = Some d ->
  backends w !! _storage d = Some b ->
  table_docs b nm = Some l ->
  seed l = None ->
  Table_init nm db w = (w, Raise KeyError) /\
  (_table_cache w !! nm = None -> TinyDB_table db nm w = (w, Raise KeyError)).
Proof.
  intros Hdb Hb Hl Hseed.
  pose proof (Table_init_seed w nm db l (TinyDB_read_docs w db d b nm l Hdb Hb Hl))
    as Hinit.
  rewrite Hseed in Hinit. split; [exact Hinit|].
  intros Hc. unfold TinyDB_table, bind at 1, gets at 1. rewrite Hc.
  unfold bind. rewrite Hinit. reflexivity.
Qed.

Lemma Table_init_last_without_id_witness :
  let w := mkWorld [Some (Tables {["t" := [doc [("data", VInt 5)]]]})]
                   [mkTinyDB 0 None] [] ∅ [] in
  Table_init "t" 0 w = (w, Raise KeyError) /\
  (_table_cache w !! "t" = None -> TinyDB_table 0 "t" w = (w, Raise KeyError)).
Proof.
  intros w.
  apply (Table_init_last_without_id w "t" 0 (mkTinyDB 0 None)
           (Some (Tables {["t" := [doc [("data", VInt 5)]]]}))
           [doc [("data", VInt 5)]]); reflexivity.
Defined.

(** ** The registry and the default table *)

Lemma TinyDB_default_table_run w self d table :
  dbs w !! self = Some d ->
  _table d = Some table ->
  TinyDB_default_table self w = (w, Return table).
Proof.
  intros Hdb Ht. unfold TinyDB_default_table. run (get_db_run _ _ _ Hdb).
  rewrite Ht. reflexivity.
Qed.

Lemma TinyDB_table_new w self nm d b l v :
  dbs w !! self = Some d ->
  backends w !! _storage d = Some b ->
  table_docs b nm = Some l ->
  seed l = Some v ->
  _table_cache w !! nm = None ->
  TinyDB_table self nm w
  = (set_table_cache <[nm := length (tables w)]>
       (set_tables (fun ts => ts ++ [mkTable nm self ∅ v]) w),
     Return (length (tables w))).
Proof.
  intros Hdb Hb Hl Hseed Hc.
  pose proof (Table_init_seed w nm self l (TinyDB_read_docs w self d b nm l Hdb Hb Hl))
    as Hinit.
  rewrite Hseed in Hinit.
  unfold TinyDB_table, bind at 1, gets at 1. rewrite Hc. run Hinit. reflexivity.
Qed.

(** X15: [table(name)] for a name the registry does not hold constructs
    one table, bound to the calling database, with an empty cache and the
    counter the stored list gives, and registers it under the name; the
    backend is not written.  Every later call returns this table and changes
    nothing. *)
Theorem TinyDB_table_creates_once w self nm d b l v :
  dbs w !! self = Some d ->
  backends w !! _storage d = Some b ->
  table_docs b nm = Some l ->
  seed l = Some v ->
  _table_cache w !! nm = None ->
  exists w1 table,
    TinyDB_table self nm w = (w1, Return table) /\
    tables w1 = tables w ++ [mkTable nm self ∅ v] /\
    tables w1 !! table = Some (mkTable nm self ∅ v) /\
    _table_cache w1 = <[nm := table]> (_table_cache w) /\
    backends w1 = backends w /\
    forall other, TinyDB_table other nm w1 = (w1, Return table).
Proof.
  intros Hdb Hb Hl Hseed Hc.
  eexists _, _. split; [exact (TinyDB_table_new w self nm d b l v Hdb Hb Hl Hseed Hc)|].
  split; [reflexivity|]. split.
  - simpl. rewrite lookup_app_r by lia. rewrite Nat.sub_diag. reflexivity.
  - split; [reflexivity|]. split; [reflexivity|].
    intros other. unfold TinyDB_table, bind at 1, gets at 1. simpl.
    rewrite lookup_insert_eq. reflexivity.
Qed.

Lemma TinyDB_table_creates_once_witness :
  let w := mkWorld [Some (Tables {["t" := ex_docs]})] [mkTinyDB 0 None] [] ∅ [] in
  exists w1 table,
    TinyDB_table 0 "t" w = (w1, Return table) /\
    tables w1 = tables w ++ [mkTable "t" 0 ∅ (VInt 2)] /\
    tables w1 !! table = Some (mkTable "t" 0 ∅ (VInt 2)) /\
    _table_cache w1 = <["t" := table]> (_table_cache w) /\
    backends w1 = backends w /\
    forall other, TinyDB_table other "t" w1 = (w1, Return table).
Proof.
  intros w.
  apply (TinyDB_table_creates_once w 0 "t" (mkTinyDB 0 None)
           (Some (Tables {["t" := ex_docs]})) ex_docs (VInt 2)); reflexivity.
Defined.

(** X16: [TinyDB(...)], when the registry holds no ['_default'], makes a
    database over the storage and a table ['_default'] bound to it, binds
    [_table] to that table and registers it; [len(db)] is then the number of
    documents the storage holds for ['_default']. *)
Theorem TinyDB_init_default_table w storage b l v :
  backends w !! storage = Some b ->
  table_docs b "_default" = Some l ->
  seed l = Some v ->
  _table_cache w !! "_default" = None ->
  exists w1 self table,
    TinyDB_init storage w = (w1, Return self) /\
    dbs w1 = dbs w ++ [mkTinyDB storage (Some table)] /\
    default_table w1 self table /\
    table_at w1 table (mkTable "_default" self ∅ v) l /\
    TinyDB_len self w1 = (w1, Return (length l)).
Proof.
  intros Hb Hl Hseed Hc.
  set (self := length (dbs w)).
  set (table := length (tables w)).
  set (w0 := set_dbs (fun ds => ds ++ [mkTinyDB storage None]) w).
  assert (Hdb0 : dbs w0 !! self = Some (mkTinyDB storage None)).
  { simpl. rewrite lookup_app_r by (unfold self; lia).
    unfold self. rewrite Nat.sub_diag. reflexivity. }
  pose proof (TinyDB_table_new w0 self "_default" _ b l v Hdb0 Hb Hl Hseed Hc)
    as Hcall.
  set (wt := set_table_cache <["_default" := table]>
               (set_tables (fun ts => ts ++ [mkTable "_default" self ∅ v]) w0)) in *.
  set (w1 := set_dbs <[self := mkTinyDB storage (Some table)]> wt).
  assert (Hdbs : dbs w1 = dbs w ++ [mkTinyDB storage (Some table)]).
  { simpl. rewrite insert_app_r_alt by (unfold self; lia).
    unfold self. rewrite Nat.sub_diag. reflexivity. }
  assert (Hdb1 : dbs w1 !! self = Some (mkTinyDB storage (Some table))).
  { rewrite Hdbs, lookup_app_r by (unfold self; lia).
    unfold self. rewrite Nat.sub_diag. reflexivity. }
  assert (Hat : table_at w1 table (mkTable "_default" self ∅ v) l).
  { constructor.
    - simpl. rewrite lookup_app_r by (unfold table; lia).
      unfold table. rewrite Nat.sub_diag. reflexivity.
    - exists (mkTinyDB storage (Some table)), b. auto. }
  exists w1, self, table. split; [|split; [exact Hdbs|split; [|split; [exact Hat|]]]].
  - unfold TinyDB_init. unfold bind at 1, new_db, bind at 1, gets at 1.
    unfold bind at 1, modify at 1, ret at 1. fold w0. fold self.
    run Hcall. reflexivity.
  - split; [eexists; split; [exact Hdb1|reflexivity]|].
    simpl. apply lookup_insert_eq.
  - unfold TinyDB_len. run (TinyDB_default_table_run _ _ _ _ Hdb1 eq_refl).
    unfold Table_len, Table_all.
    run (Table_read_run _ _ _ _ Hat). reflexivity.
Qed.

Lemma TinyDB_init_default_table_witness :
  let w := mkWorld [Some (Tables {["_default" := ex_docs]})] [] [] ∅ [] in
  exists w1 self table,
    TinyDB_init 0 w = (w1, Return self) /\
    dbs w1 = dbs w ++ [mkTinyDB 0 (Some table)] /\
    default_table w1 self table /\
    table_at w1 table (mkTable "_default" self ∅ (VInt 2)) ex_docs /\
    TinyDB_len self w1 = (w1, Return 2%nat).
Proof.
  intros w.
  apply (TinyDB_init_default_table w 0 (Some (Tables {["_default" := ex_docs]}))
           ex_docs (VInt 2)); reflexivity.
Defined.

(** X17: on a database as [__init__] leaves it the calls on the database
    are calls on its table ['_default']: [len(db)] is the number of its
    documents, [cond in db] tells whether the condition holds of one of them,
    [db.insert] stores into it and [db.search] finds what was stored, as in
    the example of the docstring of the class. *)
Theorem TinyDB_calls_default_table w self table t l n element e cond :
  default_table w self table ->
  table_at w table t l ->
  no_cond_key t ->
  _last_id t = VInt n ->
  dicts w !! element = Some e ->
  let e' := <["_id" := VInt (n + 1)]> e in
  TinyDB_len self w = (w, Return (length l)) /\
  (exists w' b,
     TinyDB_contains self cond w = (w', Return b) /\
     (b = true <-> exists x, x ∈ l /\ eval cond x = true)) /\
  (exists w1 w2,
     TinyDB_insert self element w = (w1, Return tt) /\
     Table_all table w1 = (w1, Return (Docs (l ++ [e']))) /\
     TinyDB_search self cond w1
     = (w2, Return (filter (fun x => eval cond x = true) l
                    ++ (if eval cond e' then [e'] else [])))).
Proof.
  intros [(d & Hdb & Htab) Hreg] Hat Hc Hn He e'. split; [|split].
  - unfold TinyDB_len. run (TinyDB_default_table_run _ _ _ _ Hdb Htab).
    unfold Table_len, Table_all. run (Table_read_run _ _ _ _ Hat). reflexivity.
  - destruct (Table_search_run w table t l cond Hat (Hc cond)) as [Hs _].
    eexists _, _. split.
    + unfold TinyDB_contains. unfold bind at 1, TinyDB_table, bind at 1, gets at 1.
      rewrite Hreg. unfold ret at 1. unfold Table_contains. run Hs. reflexivity.
    + destruct (filter (fun x => eval cond x = true) l) as [|x k] eqn:Hf; simpl.
      * split; [discriminate|]. intros (y & Hy & Hev). exfalso.
        apply (filter_nil_not_elem_of _ _ y Hf Hev Hy).
      * split; [|reflexivity]. intros _. exists x.
        assert (Hx : x ∈ filter (fun x => eval cond x = true) l)
          by (rewrite Hf; left).
        apply list_elem_of_filter in Hx as [Hev Hx]. auto.
  - pose proof Hat as [Ht (dt & b & Hdt & Hb & Hl)].
    pose proof (Table_insert_world w table t dt b l n element e Ht Hdt Hb Hl Hn He)
      as Hi. cbv zeta in Hi. fold e' in Hi.
    set (t1 := mkTable (name t) (_db t) ∅ (VInt (n + 1))) in *.
    match type of Hi with _ = (?x, _) => set (w1 := x) in * end.
    assert (Hat1 : table_at w1 table t1 (l ++ [e'])).
    { constructor.
      - apply list_lookup_insert_eq. eapply lookup_lt_Some, Ht.
      - exists dt, (Some (put_docs b (name t) (l ++ [e']))).
        split; [exact Hdt|]. split.
        + apply list_lookup_insert_eq. eapply lookup_lt_Some, Hb.
        + eapply table_docs_put, Hl. }
    destruct (Table_search_run w1 table t1 _ cond Hat1 (lookup_empty _)) as [Hs _].
    eexists w1, _. split; [|split].
    + unfold TinyDB_insert. run (TinyDB_default_table_run _ _ _ _ Hdb Htab).
      exact Hi.
    + apply (Table_read_run _ _ _ _ Hat1).
    + unfold TinyDB_search.
      run (TinyDB_default_table_run w1 self d table Hdb Htab).
      rewrite Hs. do 2 f_equal.
      rewrite filter_app, filter_cons, filter_nil.
      destruct (eval cond e'); [rewrite decide_True by reflexivity
                               |rewrite decide_False by discriminate]; reflexivity.
Qed.

Lemma TinyDB_calls_default_table_witness :
  let w := mkWorld [None] [mkTinyDB 0 (Some 0%nat)]
                   [mkTable "_default" 0 ∅ (VInt 0)] {["_default" := 0%nat]}
                   [doc [("data", VInt 5)]] in
  let cond := QEq "data" (VInt 5) in
  TinyDB_len 0 w = (w, Return 0%nat) /\
  (exists w' b,
     TinyDB_contains 0 cond w = (w', Return b) /\
     (b = true <-> exists x, x ∈ [] /\ eval cond x = true)) /\
  (exists w1 w2,
     TinyDB_insert 0 0 w = (w1, Return tt) /\
     Table_all 0 w1 = (w1, Return (Docs [doc [("data", VInt 5); ("_id", VInt 1)]])) /\
     TinyDB_search 0 cond w1
     = (w2, Return [doc [("data", VInt 5); ("_id", VInt 1)]])).
Proof.
  intros w cond.
  apply (TinyDB_calls_default_table w 0 0 (mkTable "_default" 0 ∅ (VInt 0)) [] 0 0
           (doc [("data", VInt 5)]) cond).
  - split; [eexists; split; reflexivity | reflexivity].
  - constructor; [reflexivity|]. eexists _, _. repeat split.
  - intros c. apply lookup_empty.
  - reflexivity.
  - reflexivity.
Defined.

(** ** The empty name, and a table constructed anew *)

(** X18: for the empty name [TinyDB._read('')] is the whole snapshot, and
    over a backend that reads as a dict (nothing decodable is the empty dict)
    [Table.__init__] raises [TypeError] at [pop()]; [table('')] raises as
    well, registers nothing and leaves the world as it was. *)
Theorem Table_init_empty_name w db d b :
  dbs w !! db = Some d ->
  backends w !! _storage d = Some b ->
  (forall k, b <> Some (Docs k)) ->
  Table_init "" db w = (w, Raise TypeError) /\
  (_table_cache w !! "" = None -> TinyDB_table db "" w = (w, Raise TypeError)).
Proof.
  intros Hdb Hb Hdict.
  assert (Hinit : Table_init "" db w = (w, Raise TypeError)).
  { unfold Table_init, bind at 1, try_except.
    erewrite bind_Return
      by (apply (TinyDB_read_unnamed w db d b Hdb Hb (Some "")); reflexivity).
    destruct b as [[m|k]|]; [reflexivity | exfalso; exact (Hdict k eq_refl)
                            | reflexivity]. }
  split; [exact Hinit|].
  intros Hc. unfold TinyDB_table, bind at 1, gets at 1. rewrite Hc.
  unfold bind. rewrite Hinit. reflexivity.
Qed.

Lemma Table_init_empty_name_witness :
  Table_init "" 0 ex_world = (ex_world, Raise TypeError) /\
  (_table_cache ex_world !! "" = None ->
   TinyDB_table 0 "" ex_world = (ex_world, Raise TypeError)).
Proof.
  apply (Table_init_empty_name ex_world 0 (mkTinyDB 0 None)
           (Some (Tables {["t" := ex_docs]}))); [reflexivity | reflexivity |].
  intros k Hk. discriminate Hk.
Defined.





